(** * Session correlation and lifecycle layer of the Stagehand MCP server

    A shallow embedding of
      - [src/stagehand/src/server.ts]   (configuration, [SessionManager],
        the single-instance [ensureStagehand], the CallTool handler),
      - [src/stagehand/src/resources.ts] (screenshot store),
      - the SSE entry point             (connection registry, [/messages]),
    followed by the properties proved about them.

    Conventions.  A JavaScript string is a [string] (one [ascii] per code
    unit); [string | undefined] is [option string]; a [Map] or an object
    used as a dictionary is a [gmap]; a [Set] is a [gset].  An exception is
    represented by its message.  Calls to [log]/[console.log] do not
    influence control flow and are not modelled. *)

From Stdlib Require Import ZArith Ascii String List Bool Lia.
From stdpp Require Import base option strings list gmap fin_maps fin_sets.

Local Open Scope string_scope.

(* ===================================================================== *)
(** ** JavaScript primitives used by the sources *)
(* ===================================================================== *)

Module JS.

(** Truthiness of a [string | undefined]: [undefined] and the empty
    string are falsy. *)
Definition truthy (v : option string) : bool :=
  match v with
  | Some s => negb (String.eqb s "")
  | None => false
  end.

(** [a || b] on [string | undefined]. *)
Definition or (a b : option string) : option string :=
  if truthy a then a else b.

(** [s.startsWith(p)]. *)
Fixpoint startsWith (s p : string) {struct p} : bool :=
  match p with
  | EmptyString => true
  | String c p' =>
      match s with
      | EmptyString => false
      | String d s' => if Ascii.eqb c d then startsWith s' p' else false
      end
  end.

(** [s.includes(p)]. *)
Fixpoint includes (s p : string) : bool :=
  startsWith s p ||
  match s with
  | EmptyString => false
  | String _ s' => includes s' p
  end.

(** [s.split(sep)] for a non-empty separator: scan left to right, cut at
    every occurrence of [sep], resume after it.  [skip] counts the
    characters of a matched separator still to be passed over and [cur]
    is the segment read so far. *)
Fixpoint split_from (sep : string) (skip : nat) (cur s : string)
  : list string :=
  match s with
  | EmptyString => [cur]
  | String c s' =>
      match skip with
      | S k => split_from sep k cur s'
      | O =>
          if startsWith s sep
          then cur :: split_from sep (String.length sep - 1) "" s'
          else split_from sep 0 (cur +:+ String c "") s'
      end
  end.

Definition split (s sep : string) : list string := split_from sep 0 "" s.

(** *** [JSON.stringify] on strings and on flat objects of strings *)

Definition dquote : ascii := "034"%char.
Definition backslash : ascii := "092"%char.

(** Lower-case hexadecimal digit of a number below 16. *)
Definition hexDigit (n : N) : ascii :=
  if (n <? 10)%N then ascii_of_N (48 + n) else ascii_of_N (87 + n).

(** QuoteJSONString, one code unit: the two-character escapes, [\u00XX]
    for the other control characters, anything else verbatim. *)
Definition escapeChar (c : ascii) : string :=
  let n := N_of_ascii c in
  if (n =? 8)%N then "\b"
  else if (n =? 9)%N then "\t"
  else if (n =? 10)%N then "\n"
  else if (n =? 12)%N then "\f"
  else if (n =? 13)%N then "\r"
  else if (n =? 34)%N then String backslash (String dquote "")
  else if (n =? 92)%N then "\\"
  else if (n <? 32)%N
       then "\u00" +:+ String (hexDigit (n / 16)) (String (hexDigit (n mod 16)) "")
       else String c "".

Fixpoint escape (s : string) : string :=
  match s with
  | EmptyString => ""
  | String c s' => escapeChar c +:+ escape s'
  end.

(** [JSON.stringify(s)] for a string [s]. *)
Definition quote (s : string) : string :=
  String dquote (escape s +:+ String dquote "").

(** One property of an object literal: absent from the output when its
    value is [undefined]. *)
Definition property (kv : string * option string) : option string :=
  match kv.2 with
  | Some v => Some (quote kv.1 +:+ ":" +:+ quote v)
  | None => None
  end.

Fixpoint join (sep : string) (l : list string) : string :=
  match l with
  | [] => ""
  | [x] => x
  | x :: l' => x +:+ sep +:+ join sep l'
  end.

(** [JSON.stringify(o)] for an object whose properties, in order, are
    [fields] and whose values are strings or [undefined]. *)
Definition stringify (fields : list (string * option string)) : string :=
  "{" +:+ join "," (omap property fields) +:+ "}".

End JS.

(* ===================================================================== *)
(** ** Configuration ([getStagehandConfig]) *)
(* ===================================================================== *)

(** [interface ApiKeys]; the argument itself is optional. *)
Record ApiKeys := {
  browserbaseApiKey : option string;
  browserbaseProjectId : option string;
  openaiApiKey : option string
}.

(** The part of [process.env] the code reads. *)
Record ProcessEnv := {
  BROWSERBASE_API_KEY : option string;
  BROWSERBASE_PROJECT_ID : option string;
  OPENAI_API_KEY : option string;
  CONTEXT_ID : option string
}.

(** [ConstructorParams], restricted to the fields that are not constants
    of [getStagehandConfig].  [modelApiKey] is [modelClientOptions.apiKey]
    and [contextId] is
    [browserbaseSessionCreateParams.browserSettings.context.id]
    ([None] when [browserSettings] is [undefined]). *)
Record ConstructorParams := {
  apiKey : option string;
  projectId : option string;
  modelApiKey : option string;
  contextId : option string
}.

(** Result of a computation that may throw; the exception is its message. *)
Inductive Result (A : Type) : Type :=
| Ok (a : A)
| Throw (msg : string).
Arguments Ok {A} a.
Arguments Throw {A} msg.

Definition field (o : option ApiKeys) (f : ApiKeys -> option string)
  : option string :=
  match o with
  | Some k => f k
  | None => None
  end.

(** [getStagehandConfig] of the session-managed server (second version of
    server.ts): keys fall back to the environment, and all three are
    required. *)
Definition getStagehandConfig (env : ProcessEnv) (apiKeys : option ApiKeys)
  : Result ConstructorParams :=
  let bbKey := JS.or (field apiKeys browserbaseApiKey) (BROWSERBASE_API_KEY env) in
  let bbProject := JS.or (field apiKeys browserbaseProjectId) (BROWSERBASE_PROJECT_ID env) in
  let oaKey := JS.or (field apiKeys openaiApiKey) (OPENAI_API_KEY env) in
  if negb (JS.truthy bbKey) || negb (JS.truthy bbProject) || negb (JS.truthy oaKey)
  then Throw ("Missing required API keys: "
              +:+ (if negb (JS.truthy bbKey) then "browserbaseApiKey " else "")
              +:+ (if negb (JS.truthy bbProject) then "browserbaseProjectId " else "")
              +:+ (if negb (JS.truthy oaKey) then "openaiApiKey" else ""))
  else Ok {| apiKey := bbKey;
             projectId := bbProject;
             modelApiKey := oaKey;
             contextId := if JS.truthy (CONTEXT_ID env) then CONTEXT_ID env else None |}.

(** [SessionManager.getSessionKey]. *)
Definition getSessionKey (config : ConstructorParams) : string :=
  JS.stringify [ ("browserbaseApiKey", apiKey config);
                 ("browserbaseProjectId", projectId config);
                 ("openaiApiKey", modelApiKey config);
                 ("contextId", contextId config) ].

(* ===================================================================== *)
(** ** Session store ([class SessionManager]) *)
(* ===================================================================== *)

(** [interface StagehandSession].  A [Stagehand] object is represented by
    its identity: the rank of the [new Stagehand(...)] call that made it.
    A session record is only ever built around a freshly constructed
    instance, so that identity also identifies the record object. *)
Record StagehandSession := {
  stagehand : nat;
  config : ConstructorParams;
  lastUsed : Z
}.

(** State owned by the session manager, with two counters that observe
    its use of the external engine: [constructed] counts the
    [new Stagehand] calls so far, [closeCalls] lists the instances whose
    [page.close()] was invoked (latest first). *)
Record World := {
  sessions : gmap string StagehandSession;
  constructed : nat;
  closeCalls : list nat
}.

(** What a task observes from outside when it runs up to its next
    [await]: the process environment, [Date.now()], whether
    [stagehand.page] is defined when read, and how the promise it was
    suspended on settled. *)
Record Obs := {
  procEnv : ProcessEnv;
  now : Z;
  pageDefined : bool;
  settled : Result unit
}.

(** An asynchronous call of the session manager: not yet started,
    suspended at one of its [await]s, or finished. *)
Inductive Task :=
| CallGetSession (apiKeys : option ApiKeys)
| AwaitEvaluate (config : ConstructorParams) (sessionKey : string)
                (existingSession : StagehandSession)
| AwaitInit (config : ConstructorParams) (sessionKey : string) (stagehand : nat)
| CallCloseSession (apiKeys : option ApiKeys)
| AwaitClose (sessionKey : string)
| Returned (stagehand : nat)
| ReturnedVoid
| Thrown (msg : string).

Definition sessionTimeout : Z := 5 * 60 * 1000.

Definition showBool (b : bool) : string := if b then "true" else "false".

Definition setSessions (w : World) (m : gmap string StagehandSession) : World :=
  {| sessions := m; constructed := constructed w; closeCalls := closeCalls w |}.

(** [existingSession.lastUsed = now]: the assignment goes to the record
    object the task holds; the store shows it only while that object is
    still the one installed under the key. *)
Definition touch (m : gmap string StagehandSession) (sessionKey : string)
    (existingSession : StagehandSession) (t : Z)
  : gmap string StagehandSession :=
  match m !! sessionKey with
  | Some r =>
      if Nat.eqb (stagehand r) (stagehand existingSession)
      then <[sessionKey := {| stagehand := stagehand r; config := config r;
                              lastUsed := t |}]> m
      else m
  | None => m
  end.

(** The "create a new session" block of [getSession], up to
    [await stagehand.init()]. *)
Definition createSession (w : World) (config : ConstructorParams)
    (sessionKey : string) : World * Task :=
  if negb (JS.truthy (apiKey config)) || negb (JS.truthy (projectId config))
     || negb (JS.truthy (modelApiKey config))
  then (w, Thrown ("Missing required configuration: apiKey="
                   +:+ showBool (JS.truthy (apiKey config))
                   +:+ ", projectId=" +:+ showBool (JS.truthy (projectId config))
                   +:+ ", modelClientOptions.apiKey="
                   +:+ showBool (JS.truthy (modelApiKey config))))
  else ({| sessions := sessions w; constructed := S (constructed w);
           closeCalls := closeCalls w |},
        AwaitInit config sessionKey (constructed w)).

(** One turn of a task: from where it stands to its next [await] or to
    its end.  [getSession] is lines 414-481, [closeSession] lines 484-498
    of server.ts. *)
Definition step (o : Obs) (w : World) (t : Task) : World * Task :=
  match t with
  | CallGetSession apiKeys =>
      match getStagehandConfig (procEnv o) apiKeys with
      | Throw msg => (w, Thrown msg)
      | Ok config =>
          let sessionKey := getSessionKey config in
          match sessions w !! sessionKey with
          | Some existingSession =>
              if negb (pageDefined o)
              then (* "Invalid stagehand instance or missing page object",
                      caught: the record is removed *)
                createSession (setSessions w (delete sessionKey (sessions w)))
                              config sessionKey
              else (w, AwaitEvaluate config sessionKey existingSession)
          | None => createSession w config sessionKey
          end
      end
  | AwaitEvaluate config sessionKey existingSession =>
      match settled o with
      | Ok _ =>
          (setSessions w (touch (sessions w) sessionKey existingSession (now o)),
           Returned (stagehand existingSession))
      | Throw _ =>
          createSession (setSessions w (delete sessionKey (sessions w)))
                        config sessionKey
      end
  | AwaitInit config sessionKey stagehand =>
      match settled o with
      | Throw msg => (w, Thrown msg)
      | Ok _ =>
          if negb (pageDefined o)
          then (w, Thrown "Stagehand initialization completed but page object is undefined")
          else (setSessions w (<[sessionKey := {| stagehand := stagehand;
                                                  config := config;
                                                  lastUsed := now o |}]> (sessions w)),
                Returned stagehand)
      end
  | CallCloseSession apiKeys =>
      match getStagehandConfig (procEnv o) apiKeys with
      | Throw msg => (w, Thrown msg)
      | Ok config =>
          let sessionKey := getSessionKey config in
          match sessions w !! sessionKey with
          | Some session =>
              if negb (pageDefined o)
              then (* reading [page.close] throws inside the [try]: caught,
                      and [finally] deletes in the same turn *)
                (setSessions w (delete sessionKey (sessions w)), ReturnedVoid)
              else
                ({| sessions := sessions w; constructed := constructed w;
                    closeCalls := stagehand session :: closeCalls w |},
                 AwaitClose sessionKey)
          | None => (w, ReturnedVoid)
          end
      end
  | AwaitClose sessionKey =>
      match settled o with
      | Ok _ => (setSessions w (delete sessionKey (sessions w)), ReturnedVoid)
      | Throw _ => (setSessions w (delete sessionKey (sessions w)), ReturnedVoid)
      end
  | Returned _ | ReturnedVoid | Thrown _ => (w, t)
  end.

(** A call running alone: its turns follow one another with nothing in
    between. *)
Fixpoint run_task (os : list Obs) (w : World) (t : Task) : World * Task :=
  match os with
  | [] => (w, t)
  | o :: os' => let '(w', t') := step o w t in run_task os' w' t'
  end.

(** Several calls in flight: the event loop resumes one of them at a time. *)
Definition step_at (i : nat) (o : Obs) (s : World * list Task)
  : World * list Task :=
  match s.2 !! i with
  | Some t => let '(w', t') := step o s.1 t in (w', <[i := t']> s.2)
  | None => s
  end.

Definition run_pool (schedule : list (nat * Obs)) (s : World * list Task)
  : World * list Task :=
  foldl (fun s io => step_at io.1 io.2 s) s schedule.

(** *** [cleanupStaleSessions] (lines 513-532) *)

Definition stale (t : Z) (session : StagehandSession) : bool :=
  (t - lastUsed session >? sessionTimeout)%Z.

(** What a pass over the store (the sweep, or [closeAllSessions])
    observes when it runs up to its next [await]: [Date.now()], for each
    instance whether its [page] is defined when read, and how the
    [page.close()] it was suspended on settled. *)
Record PassObs := {
  clock : Z;
  pageOf : nat -> bool;
  closeSettled : Result unit
}.

(** A call of [cleanupStaleSessions]: not yet started, suspended at
    [await session.stagehand.page.close()] (line 520) inside the loop,
    or finished.  A suspended call holds [now], the loop variables
    [key] and [session], the keys the iterator of
    [this.sessions.entries()] has still to yield, and [keysToRemove]. *)
Inductive Sweep :=
| SweepCall
| SweepAwaitClose (t : Z) (key : string) (session : StagehandSession)
                  (remaining keysToRemove : list string)
| SweepReturned.

(** The loop of lines 517-526 from the iterator's position on, then
    line 528.  A stale record whose instance has a page has
    [page.close()] invoked and the call suspends; when the page is
    undefined, reading [page.close] throws inside the [try], nothing is
    closed and the key is collected all the same.  Once the iterator is
    exhausted the collected keys are deleted. *)
Fixpoint sweepFrom (t : Z) (pageOf : nat -> bool) (w : World)
    (remaining keysToRemove : list string) : World * Sweep :=
  match remaining with
  | [] =>
      (setSessions w (foldl (fun m key => delete key m) (sessions w) keysToRemove),
       SweepReturned)
  | key :: rest =>
      match sessions w !! key with
      | Some session =>
          if stale t session
          then
            if pageOf (stagehand session)
            then ({| sessions := sessions w; constructed := constructed w;
                     closeCalls := stagehand session :: closeCalls w |},
                  SweepAwaitClose t key session rest keysToRemove)
            else sweepFrom t pageOf w rest (keysToRemove ++ [key])
          else sweepFrom t pageOf w rest keysToRemove
      | None => sweepFrom t pageOf w rest keysToRemove
      end
  end.

(** One turn of the sweep.  It starts with the keys of the store (in
    the order of [map_to_list]; the insertion order of the [Map] is not
    tracked); resumed after a close, however it settled, it collects the
    key and goes on. *)
Definition sweepTurn (o : PassObs) (w : World) (s : Sweep) : World * Sweep :=
  match s with
  | SweepCall =>
      sweepFrom (clock o) (pageOf o) w (map_to_list (sessions w)).*1 []
  | SweepAwaitClose t key session remaining keysToRemove =>
      match closeSettled o with
      | Ok _ => sweepFrom t (pageOf o) w remaining (keysToRemove ++ [key])
      | Throw _ => sweepFrom t (pageOf o) w remaining (keysToRemove ++ [key])
      end
  | SweepReturned => (w, s)
  end.

(** A [Map] iterator is live.  When the store goes from [m] to [m']
    while a pass is suspended, an entry that was deleted is not yielded
    any more, and an entry under a key that was not in [m] comes after
    all the others, also when that key had been visited before. *)
Definition advance (m m' : gmap string StagehandSession)
    (remaining : list string) : list string :=
  filter (fun k => is_Some (m' !! k)) remaining
  ++ filter (fun k => m !! k = None) (map_to_list m').*1.

(** What the event loop runs: calls of [getSession] and [closeSession],
    and sweeps started by the timer of line 400. *)
Inductive Job :=
| CallOf (t : Task)
| SweepOf (s : Sweep).

Inductive Turn :=
| TurnOf (o : Obs)
| PassOf (o : PassObs).

Definition advanceJob (m m' : gmap string StagehandSession) (j : Job) : Job :=
  match j with
  | SweepOf (SweepAwaitClose t key session remaining keysToRemove) =>
      SweepOf (SweepAwaitClose t key session (advance m m' remaining) keysToRemove)
  | _ => j
  end.

(** The event loop resumes job [i]; the iterators of the suspended
    sweeps follow what it does to the store. *)
Definition job_step (i : nat) (turn : Turn) (s : World * list Job)
  : World * list Job :=
  match s.2 !! i, turn with
  | Some (CallOf t), TurnOf o =>
      let '(w', t') := step o s.1 t in
      (w', <[i := CallOf t']> (advanceJob (sessions s.1) (sessions w') <$> s.2))
  | Some (SweepOf sw), PassOf o =>
      let '(w', sw') := sweepTurn o s.1 sw in
      (w', <[i := SweepOf sw']> (advanceJob (sessions s.1) (sessions w') <$> s.2))
  | _, _ => s
  end.

Definition run_jobs (schedule : list (nat * Turn)) (s : World * list Job)
  : World * list Job :=
  foldl (fun s it => job_step it.1 it.2 s) s schedule.

(** The sweep running alone: its turns follow one another with nothing
    in between, [closeResult] telling how [page.close()] settles on each
    instance.  [fuel] bounds the number of turns. *)
Fixpoint sweepAlone (fuel : nat) (t : Z) (pageOf : nat -> bool)
    (closeResult : nat -> Result unit) (w : World) (s : Sweep)
  : World * Sweep :=
  match fuel with
  | O => (w, s)
  | S fuel' =>
      let o := {| clock := t;
                  pageOf := pageOf;
                  closeSettled :=
                    match s with
                    | SweepAwaitClose _ _ session _ _ =>
                        closeResult (stagehand session)
                    | _ => Ok tt
                    end |} in
      let '(w', s') := sweepTurn o w s in
      sweepAlone fuel' t pageOf closeResult w' s'
  end.

(** A call of [cleanupStaleSessions] at time [t] running alone; one
    turn per record, and one more, are enough for it to finish. *)
Definition cleanupStaleSessions (t : Z) (pageOf : nat -> bool)
    (closeResult : nat -> Result unit) (w : World) : World * Sweep :=
  sweepAlone (S (size (sessions w))) t pageOf closeResult w SweepCall.

(* ===================================================================== *)
(** ** Single-instance [ensureStagehand] (first version of server.ts) *)
(* ===================================================================== *)

Module Legacy.

(** The non-constant fields of the configuration built by the first
    [getStagehandConfig]; [env] is "BROWSERBASE" or "LOCAL". *)
Record Config := {
  env : string;
  apiKey : option string;
  projectId : option string;
  modelApiKey : option string;
  contextId : option string
}.

Definition getStagehandConfig (e : ProcessEnv) (apiKeys : option ApiKeys)
  : Config :=
  let bbKey := JS.or (field apiKeys browserbaseApiKey) (BROWSERBASE_API_KEY e) in
  let bbProject := JS.or (field apiKeys browserbaseProjectId) (BROWSERBASE_PROJECT_ID e) in
  let oaKey := JS.or (field apiKeys openaiApiKey) (OPENAI_API_KEY e) in
  {| env := if JS.truthy bbKey && JS.truthy bbProject then "BROWSERBASE" else "LOCAL";
     apiKey := bbKey;
     projectId := bbProject;
     modelApiKey := oaKey;
     contextId := if JS.truthy (CONTEXT_ID e) then CONTEXT_ID e else None |}.



(** The test of lines 109-112 on the message of the caught error. *)
Definition resourceGone (message : string) : bool :=
  JS.includes message "Target page, context or browser has been closed"
  || JS.includes message "Session expired"
  || JS.includes message "context destroyed".



End Legacy.

(* ===================================================================== *)
(** ** CallTool request handler (lines 597-647) *)
(* ===================================================================== *)

Module Dispatcher.

(** What the handler returns: a tool result [{content, isError}] whose
    content items are all of type "text", or an object with an [error]
    member [{code, message}]. *)
Inductive Response :=
| ToolResult (content : list string) (isError : bool)
| ErrorObject (code : Z) (message : string).

(** Outcomes of the collaborators: [ensureStagehand(apiKeys)], then
    [handleToolCall] followed by sanitising and re-parsing its result,
    and the lines gathered in [operationLogs] meanwhile. *)
Record Collaborators := {
  ensured : Result nat;
  handled : string -> nat -> Result Response;
  operationLogs : list string
}.

Definition newline : string := String "010"%char "".

(** The template [${request.params?.name}]. *)
Definition showName (name : option string) : string :=
  match name with
  | Some n => n
  | None => "undefined"
  end.

Definition failure (c : Collaborators) (errorMsg : string) : Response :=
  ToolResult [ "Failed to initialize Stagehand: " +:+ errorMsg;
               "Operation logs:" +:+ newline
                 +:+ JS.join newline (operationLogs c) ]
             true.

(** [TOOLS] is the table of tools.ts, given by the names of its
    entries; [name] is [request.params?.name]. *)
Definition callTool (TOOLS : list string) (c : Collaborators)
    (name : option string) : Response :=
  match name with
  | Some n =>
      if negb (JS.truthy name) || negb (existsb (String.eqb n) TOOLS)
      then ErrorObject (-32603)
             ("Internal error: " +:+ "Invalid tool name: " +:+ showName name)
      else
        match ensured c with
        | Throw errorMsg => failure c errorMsg
        | Ok instance =>
            match handled c n instance with
            | Ok result => result
            | Throw errorMsg => failure c errorMsg
            end
        end
  | None =>
      ErrorObject (-32603)
        ("Internal error: " +:+ "Invalid tool name: " +:+ showName name)
  end.

(** An application-level error envelope naming [name]. *)
Definition isErrorNaming (name : string) (r : Response) : bool :=
  match r with
  | ToolResult content true => existsb (fun text => JS.includes text name) content
  | _ => false
  end.

End Dispatcher.

(* ===================================================================== *)
(** ** Connection registry and the /sse and /messages handlers *)
(* ===================================================================== *)

Module Sse.

(** An entry [{ transport, response }] of the [sessions] object, by the
    identities of the two objects. *)
Record Connection := {
  transport : nat;
  response : nat
}.

(** A response sent with [res.status(code).send(body)]. *)
Record Reply := {
  status : nat;
  body : string
}.

Definition missingKeysMessage : string :=
  "Missing required API keys. Keys can be provided either as headers (x-browserbase-api-key, x-browserbase-project-id, x-openai-api-key) "
  +:+ "or as query parameters (browserbase_api_key, browserbase_project_id, openai_api_key)".

(** The [/sse] handler from the validation of the extracted keys on
    (lines 74-125).  [connected] is how [server.connect] settles,
    [sessionId] is [sseTransport.sessionId] and [c] the new transport
    and response.  The reply is [None] while the stream stays open. *)
Definition sse (apiKeys : ApiKeys) (connected : Result unit)
    (sessionId : option string) (c : Connection)
    (registry : gmap string Connection)
  : gmap string Connection * option Reply :=
  if negb (JS.truthy (browserbaseApiKey apiKeys))
     || negb (JS.truthy (browserbaseProjectId apiKeys))
     || negb (JS.truthy (openaiApiKey apiKeys))
  then (registry, Some {| status := 401; body := missingKeysMessage |})
  else
    match connected with
    | Throw _ =>
        (registry, Some {| status := 500; body := "Error connecting to server" |})
    | Ok _ =>
        match sessionId with
        | Some id =>
            if JS.truthy sessionId
            then (<[id := c]> registry, None)
            else (registry, None)
        | None => (registry, None)
        end
    end.

(** [delete sessions[sessionId]], the body of the three event handlers. *)
Definition remove (sessionId : string) (registry : gmap string Connection)
  : gmap string Connection :=
  delete sessionId registry.

(** What the [/messages] handler does with a request: it replies, or
    it hands the request to the transport of a connection, and then
    replies only if that call throws. *)
Inductive Posted :=
| Replied (r : Reply)
| Forwarded (c : Connection) (r : option Reply).

(** The [/messages] handler (lines 129-156) up to its return.  [called]
    is how the call [handlePostMessage(req, res)] itself ends (it
    returns its promise, or throws), [raised] whether that call has
    invoked [transport.onerror] before returning, and [headersSent] the
    flag read in the [catch].  The [/sse] handler has set
    [transport.onerror] to [delete sessions[sessionId]] (lines 111-114),
    and [sessionId] there is the key the connection is registered
    under. *)
Definition messages (sessionId : option string)
    (called : Result unit) (raised : bool) (headersSent : bool)
    (registry : gmap string Connection)
  : gmap string Connection * Posted :=
  match sessionId with
  | Some id =>
      if negb (JS.truthy sessionId)
      then (registry, Replied {| status := 400; body := "Missing sessionId parameter" |})
      else
        match registry !! id with
        | Some session =>
            (if raised then remove id registry else registry,
             match called with
             | Ok _ => Forwarded session None
             | Throw _ =>
                 if headersSent
                 then Forwarded session None
                 else Forwarded session
                        (Some {| status := 500; body := "Internal server error" |})
             end)
        | None =>
            (registry,
             Replied {| status := 503;
                        body := "No active SSE connection for session " +:+ id |})
        end
  | None =>
      (registry, Replied {| status := 400; body := "Missing sessionId parameter" |})
  end.

(** What happens later, when the promise of [handlePostMessage] settles
    (the [.catch] of lines 141-146), on the registry as it is by then.
    [raised] is whether [transport.onerror] has been invoked since the
    handler returned. *)
Definition messagesSettled (id : string) (handledPost : Result unit)
    (raised : bool) (headersSent : bool) (registry : gmap string Connection)
  : gmap string Connection * option Reply :=
  (if raised then remove id registry else registry,
   match handledPost with
   | Ok _ => None
   | Throw _ =>
       if headersSent
       then None
       else Some {| status := 500; body := "Internal server error" |}
   end).

End Sse.

(* ===================================================================== *)
(** ** Screenshot resources (resources.ts) *)
(* ===================================================================== *)

Module Resources.

(** The two module-level maps. *)
Record Store := {
  screenshots : gmap string string;
  sessionScreenshots : gmap string (gset string)
}.

Definition addScreenshot (sessionId name data : string) (st : Store) : Store :=
  let tracking :=
    match sessionScreenshots st !! sessionId with
    | Some _ => sessionScreenshots st
    | None => <[sessionId := ∅]> (sessionScreenshots st)
    end in
  {| screenshots := <[name := data]> (screenshots st);
     sessionScreenshots :=
       match tracking !! sessionId with
       | Some shots => <[sessionId := shots ∪ {[name]}]> tracking
       | None => tracking
       end |}.

(** The loop body of [cleanupSessionScreenshots]:
    [if (screenshots.delete(name)) count++]. *)
Definition deleteCounting (acc : gmap string string * nat) (name : string)
  : gmap string string * nat :=
  match acc.1 !! name with
  | Some _ => (delete name acc.1, S acc.2)
  | None => acc
  end.

(** The names of the session are visited in the order of [elements];
    neither the map left nor the count depends on that order. *)
Definition cleanupSessionScreenshots (sessionId : string) (st : Store)
  : Store * nat :=
  match sessionScreenshots st !! sessionId with
  | None => (st, 0)
  | Some sessionShots =>
      let '(shots, count) :=
        foldl deleteCounting (screenshots st, 0) (elements sessionShots) in
      ({| screenshots := shots;
          sessionScreenshots := delete sessionId (sessionScreenshots st) |},
       count)
  end.

(** One element of [contents]. *)
Record Content := {
  uri : string;
  mimeType : string;
  blob : string
}.

Definition notFound (u : string) : Result (list Content) :=
  Throw ("Resource not found: " +:+ u).

Definition readResource (u : string) (st : Store) : Result (list Content) :=
  if JS.startsWith u "screenshot://"
  then
    match JS.split u "://" !! 1 with
    | Some name =>
        match screenshots st !! name with
        | Some screenshot =>
            if JS.truthy (Some screenshot)
            then Ok [ {| uri := u; mimeType := "image/png"; blob := screenshot |} ]
            else notFound u
        | None => notFound u
        end
    | None => notFound u
    end
  else notFound u.

(** A later operation on the store. *)
Inductive Op :=
| Add (sessionId name data : string)
| Cleanup (sessionId : string).

Definition exec (op : Op) (st : Store) : Store :=
  match op with
  | Add sessionId name data => addScreenshot sessionId name data st
  | Cleanup sessionId => (cleanupSessionScreenshots sessionId st).1
  end.

Definition execAll (ops : list Op) (st : Store) : Store :=
  foldl (fun st op => exec op st) st ops.

End Resources.

(* ===================================================================== *)
(** ** Definitions used to state and prove the properties *)
(* ===================================================================== *)

(** *** Reading back one escaped code unit *)

Definition hexValue (c : ascii) : N :=
  let n := N_of_ascii c in
  if (n <? 58)%N then (n - 48)%N else (n - 87)%N.

(** Inverse of [JS.escapeChar] at the head of a string; undefined on a
    closing quote. *)
Definition decodeChar (s : string) : option (ascii * string) :=
  match s with
  | EmptyString => None
  | String c r =>
      if Ascii.eqb c JS.dquote then None
      else if Ascii.eqb c JS.backslash then
        match r with
        | String "b" r' => Some ("008"%char, r')
        | String "t" r' => Some ("009"%char, r')
        | String "n" r' => Some ("010"%char, r')
        | String "f" r' => Some ("012"%char, r')
        | String "r" r' => Some ("013"%char, r')
        | String "u" (String _ (String _ (String h (String l r')))) =>
            Some (ascii_of_N (16 * hexValue h + hexValue l), r')
        | String e r' => Some (e, r')
        | EmptyString => None
        end
      else Some (c, r)
  end.

(** The properties of an object that reach its serialisation. *)
Definition present (fields : list (string * option string))
  : list (string * string) :=
  omap (fun kv => match kv.2 with
                  | Some v => Some (kv.1, v)
                  | None => None
                  end) fields.

Definition encodePair (kv : string * string) : string :=
  JS.quote kv.1 +:+ ":" +:+ JS.quote kv.2.

(** What follows a property inside the braces. *)
Definition closing (l : list string) : string :=
  match l with
  | [] => "}"
  | _ => "," +:+ JS.join "," l +:+ "}"
  end.

(** *** Idle records *)

Definition isStale (t : Z) (kv : string * StagehandSession) : Prop :=
  (t - lastUsed kv.2 > sessionTimeout)%Z.

#[local] Instance isStale_dec t kv : Decision (isStale t kv).
Proof. unfold isStale. apply _. Defined.

(** *** Operations that disturb a stored screenshot *)

(** [op], run in [st], writes or deletes the screenshot named [n]. *)
Definition touches (n : string) (st : Resources.Store) (op : Resources.Op) : Prop :=
  match op with
  | Resources.Add _ name _ => name = n
  | Resources.Cleanup sessionId =>
      match Resources.sessionScreenshots st !! sessionId with
      | Some shots => n ∈ shots
      | None => False
      end
  end.

Fixpoint undisturbed (n : string) (st : Resources.Store)
    (ops : list Resources.Op) : Prop :=
  match ops with
  | [] => True
  | op :: ops' => ~ touches n st op /\ undisturbed n (Resources.exec op st) ops'
  end.

(** *** Sample data *)

Definition noEnv : ProcessEnv :=
  {| BROWSERBASE_API_KEY := None; BROWSERBASE_PROJECT_ID := None;
     OPENAI_API_KEY := None; CONTEXT_ID := None |}.

Definition validKeys : ApiKeys :=
  {| browserbaseApiKey := Some "bb_live_1"; browserbaseProjectId := Some "proj-1";
     openaiApiKey := Some "sk-1" |}.

Definition someKeys : option ApiKeys := Some validKeys.

Definition someConfig : ConstructorParams :=
  {| apiKey := Some "bb_live_1"; projectId := Some "proj-1";
     modelApiKey := Some "sk-1"; contextId := None |}.

Definition otherConfig : ConstructorParams :=
  {| apiKey := Some "bb_live_1"; projectId := Some "proj-1";
     modelApiKey := Some "sk-1"; contextId := Some "ctx-7" |}.

Definition emptyWorld : World :=
  {| sessions := ∅; constructed := 0; closeCalls := [] |}.

(** An observation at time [t] in which what was awaited succeeded. *)
Definition fine (e : ProcessEnv) (t : Z) : Obs :=
  {| procEnv := e; now := t; pageDefined := true; settled := Ok tt |}.

(** An observation at time [t] in which what was awaited failed. *)
Definition failing (e : ProcessEnv) (t : Z) (msg : string) : Obs :=
  {| procEnv := e; now := t; pageDefined := true; settled := Throw msg |}.

Definition warmRecord : StagehandSession :=
  {| stagehand := 0; config := someConfig; lastUsed := 10 |}.

(** A store holding one record, for [someKeys]. *)
Definition warmWorld : World :=
  {| sessions := {[ getSessionKey someConfig := warmRecord ]};
     constructed := 1; closeCalls := [] |}.

Definition timeoutMessage : string := "page.evaluate: Timeout 30000ms exceeded.".

Definition someTools : list string :=
  ["stagehand_navigate"; "stagehand_act"; "stagehand_extract";
   "stagehand_observe"; "screenshot"].

Definition healthy : Dispatcher.Collaborators :=
  {| Dispatcher.ensured := Ok 0;
     Dispatcher.handled := fun _ _ => Ok (Dispatcher.ToolResult ["done"] false);
     Dispatcher.operationLogs := [] |}.

Definition firstConnection : Sse.Connection :=
  {| Sse.transport := 1; Sse.response := 1 |}.

Definition secondConnection : Sse.Connection :=
  {| Sse.transport := 2; Sse.response := 2 |}.

Definition emptyStore : Resources.Store :=
  {| Resources.screenshots := ∅; Resources.sessionScreenshots := ∅ |}.

(* ===================================================================== *)
(** ** Further operations of the sources *)
(* ===================================================================== *)

(** *** [SessionManager.closeAllSessions] (lines 501-510) *)

(** A call of [closeAllSessions]: not yet started, suspended at
    [await session.stagehand.page.close()] (line 504) with the loop
    variable [session] and the keys whose values the iterator of
    [this.sessions.values()] has still to yield, or finished. *)
Inductive CloseAll :=
| CloseAllCall
| CloseAllAwaitClose (session : StagehandSession) (remaining : list string)
| CloseAllReturned.

(** The loop of lines 502-508 from the iterator's position on, then
    [this.sessions.clear()].  When the page of an instance is undefined,
    reading [page.close] throws inside the [try] and nothing is
    closed. *)
Fixpoint closeAllFrom (pageOf : nat -> bool) (w : World)
    (remaining : list string) : World * CloseAll :=
  match remaining with
  | [] => (setSessions w ∅, CloseAllReturned)
  | key :: rest =>
      match sessions w !! key with
      | Some session =>
          if pageOf (stagehand session)
          then ({| sessions := sessions w; constructed := constructed w;
                   closeCalls := stagehand session :: closeCalls w |},
                CloseAllAwaitClose session rest)
          else closeAllFrom pageOf w rest
      | None => closeAllFrom pageOf w rest
      end
  end.

(** One turn of [closeAllSessions]; the failure of a close is ignored. *)
Definition closeAllTurn (o : PassObs) (w : World) (s : CloseAll)
  : World * CloseAll :=
  match s with
  | CloseAllCall => closeAllFrom (pageOf o) w (map_to_list (sessions w)).*1
  | CloseAllAwaitClose session remaining =>
      match closeSettled o with
      | Ok _ => closeAllFrom (pageOf o) w remaining
      | Throw _ => closeAllFrom (pageOf o) w remaining
      end
  | CloseAllReturned => (w, s)
  end.

(** The call running alone, as [sweepAlone]. *)
Fixpoint closeAllAlone (fuel : nat) (pageOf : nat -> bool)
    (closeResult : nat -> Result unit) (w : World) (s : CloseAll)
  : World * CloseAll :=
  match fuel with
  | O => (w, s)
  | S fuel' =>
      let o := {| clock := 0;
                  pageOf := pageOf;
                  closeSettled :=
                    match s with
                    | CloseAllAwaitClose session _ => closeResult (stagehand session)
                    | _ => Ok tt
                    end |} in
      let '(w', s') := closeAllTurn o w s in
      closeAllAlone fuel' pageOf closeResult w' s'
  end.

Definition closeAllSessions (pageOf : nat -> bool)
    (closeResult : nat -> Result unit) (w : World) : World * CloseAll :=
  closeAllAlone (S (size (sessions w))) pageOf closeResult w CloseAllCall.

(** *** Resource listing (resources.ts, lines 61-79) *)

Module Listing.

(** One element of [resources]. *)
Record Resource := {
  uri : string;
  mimeType : string;
  name : string
}.

Definition describe (shot : string) : Resource :=
  {| uri := "screenshot://" +:+ shot;
     mimeType := "image/png";
     name := "Screenshot: " +:+ shot |}.

(** [listResources]: one entry per key of [screenshots].  The entries
    come in the order of [map_to_list], not in insertion order. *)
Definition listResources (st : Resources.Store) : list Resource :=
  describe <$> (map_to_list (Resources.screenshots st)).*1.

End Listing.

(** *** ReadResource request handler (server.ts, lines 685-702) *)

Module Handlers.

(** What a handler returns: the re-parsed payload, or an object with an
    [error] member [{code, message}]. *)
Inductive Reply (A : Type) : Type :=
| Payload (a : A)
| ErrorObject (code : Z) (message : string).
Arguments Payload {A} a.
Arguments ErrorObject {A} code message.

(** [reparse] stands for [JSON.parse(sanitizeMessage(response))] of
    utils.ts. *)
Definition readResource {A : Type}
    (reparse : list Resources.Content -> Result A)
    (uri : string) (st : Resources.Store) : Reply A :=
  match Resources.readResource uri st with
  | Throw errorMsg => ErrorObject (-32603) ("Internal error: " +:+ errorMsg)
  | Ok response =>
      match reparse response with
      | Ok parsed => Payload parsed
      | Throw errorMsg => ErrorObject (-32603) ("Internal error: " +:+ errorMsg)
      end
  end.

End Handlers.

(** *** Opening a stream from a request (lines 29-44 and 53-126) *)

Module Http.

(** The query parameters and the header fields of a request, each a
    string when present. *)
Record Request := {
  query : gmap string string;
  headers : gmap string string
}.

(** [extractApiKeys]: the query parameter, or else the header. *)
Definition extractApiKeys (req : Request) : ApiKeys :=
  {| browserbaseApiKey :=
       JS.or (query req !! "browserbase_api_key")
             (headers req !! "x-browserbase-api-key");
     browserbaseProjectId :=
       JS.or (query req !! "browserbase_project_id")
             (headers req !! "x-browserbase-project-id");
     openaiApiKey :=
       JS.or (query req !! "openai_api_key")
             (headers req !! "x-openai-api-key") |}.

(** The [/sse] handler on a request. *)
Definition sse (req : Request) (connected : Result unit)
    (sessionId : option string) (c : Sse.Connection)
    (registry : gmap string Sse.Connection)
  : gmap string Sse.Connection * option Sse.Reply :=
  Sse.sse (extractApiKeys req) connected sessionId c registry.

(** A credential is supplied when it is non-empty in the query or in the
    headers. *)
Definition supplied (req : Request) (param header : string) : bool :=
  JS.truthy (query req !! param) || JS.truthy (headers req !! header).

End Http.

(** *** Invariants of the session store under interleaving *)

(** The key a task works on when it takes its turn under [o]. *)
Definition keyOf (o : Obs) (t : Task) : option string :=
  match t with
  | CallGetSession apiKeys | CallCloseSession apiKeys =>
      match getStagehandConfig (procEnv o) apiKeys with
      | Ok cfg => Some (getSessionKey cfg)
      | Throw _ => None
      end
  | AwaitEvaluate _ sessionKey _ | AwaitInit _ sessionKey _
  | AwaitClose sessionKey => Some sessionKey
  | Returned _ | ReturnedVoid | Thrown _ => None
  end.

(** The instance a task has constructed and not yet installed. *)
Definition pending (t : Task) : option nat :=
  match t with
  | AwaitInit _ _ h => Some h
  | _ => None
  end.

(** The instance a task holds or has returned. *)
Definition held (t : Task) : option nat :=
  match t with
  | AwaitEvaluate _ _ existingSession => Some (stagehand existingSession)
  | AwaitInit _ _ h => Some h
  | Returned h => Some h
  | _ => None
  end.

(** Every instance in the store or in the hands of a task was
    constructed by the manager; no instance is installed under two
    keys; an instance still being initialised is not in the store and
    belongs to one task only. *)
Record wellFormed (w : World) (ts : list Task) : Prop := {
  store_issued :
    forall k r, sessions w !! k = Some r -> stagehand r < constructed w;
  held_issued :
    forall i t h, ts !! i = Some t -> held t = Some h -> h < constructed w;
  store_distinct :
    forall k1 k2 r1 r2,
      sessions w !! k1 = Some r1 -> sessions w !! k2 = Some r2 ->
      stagehand r1 = stagehand r2 -> k1 = k2;
  pending_fresh :
    forall i t h k r,
      ts !! i = Some t -> pending t = Some h ->
      sessions w !! k = Some r -> stagehand r <> h;
  pending_distinct :
    forall i j ti tj h,
      ts !! i = Some ti -> ts !! j = Some tj ->
      pending ti = Some h -> pending tj = Some h -> i = j
}.

(** A task that holds a configuration holds one that passed
    [getStagehandConfig]. *)
Definition validTask (t : Task) : Prop :=
  match t with
  | AwaitEvaluate cfg _ _ | AwaitInit cfg _ _ =>
      JS.truthy (apiKey cfg) = true /\ JS.truthy (projectId cfg) = true
      /\ JS.truthy (modelApiKey cfg) = true
  | _ => True
  end.

Definition pageUndefinedMessage : string :=
  "Stagehand initialization completed but page object is undefined".

(** *** More sample data *)

Definition coldWorld : World :=
  {| sessions := {[ "a" := {| stagehand := 0; config := someConfig; lastUsed := 10 |};
                    "b" := {| stagehand := 1; config := otherConfig; lastUsed := 11 |} ]};
     constructed := 2; closeCalls := [] |}.

Definition someRequest : Http.Request :=
  {| Http.query := {[ "browserbase_api_key" := "bb_query" ]};
     Http.headers := {[ "x-browserbase-api-key" := "bb_header";
                        "x-browserbase-project-id" := "proj-1" ]} |}.

Definition fullRequest : Http.Request :=
  {| Http.query := {[ "browserbase_api_key" := "bb_query" ]};
     Http.headers := {[ "x-browserbase-api-key" := "bb_header";
                        "x-browserbase-project-id" := "proj-1";
                        "x-openai-api-key" := "sk-1" ]} |}.

Definition someStore : Resources.Store :=
  Resources.addScreenshot "bob" "home" "BBBB"
    (Resources.addScreenshot "alice" "shot" "AAAA" emptyStore).




(** *** Measures and relations used by the invariants *)

(** What one turn of a task can do to the store, to the counter and to
    the instances the task holds. *)
Definition turnEffect (o : Obs) (w : World) (t : Task) (w' : World) (t' : Task) : Prop :=
  constructed w <= constructed w'
  /\ (forall k r', sessions w' !! k = Some r' ->
        (exists r, sessions w !! k = Some r /\ stagehand r = stagehand r')
        \/ (pending t = Some (stagehand r') /\ keyOf o t = Some k))
  /\ (forall h, pending t' = Some h ->
        h = constructed w /\ constructed w' = S (constructed w) /\ pending t = None)
  /\ (forall h, held t' = Some h ->
        held t = Some h
        \/ (exists k r, sessions w !! k = Some r /\ stagehand r = h)
        \/ (h = constructed w /\ constructed w' = S (constructed w))).

(** Fresh calls on a store whose instances are distinct and issued. *)
Definition freshCall (t : Task) : Prop :=
  match t with
  | CallGetSession _ | CallCloseSession _ => True
  | _ => False
  end.

Definition racingCalls : list Task :=
  [CallGetSession someKeys; CallGetSession someKeys].




Definition racingSchedule : list (nat * Obs) :=
  [(0, fine noEnv 1); (1, fine noEnv 2); (0, fine noEnv 3); (1, fine noEnv 4)].

(** The key of a call once it has taken its first turn. *)
Definition worksOn (key : string) (t : Task) : Prop :=
  match t with
  | CallGetSession _ | CallCloseSession _ => False
  | AwaitEvaluate _ k _ | AwaitInit _ k _ | AwaitClose k => k = key
  | Returned _ | ReturnedVoid | Thrown _ => True
  end.



(* ===================================================================== *)
(** * Properties *)
(* ===================================================================== *)

(** ** Strings *)

Lemma append_nil_l (s : string) : "" +:+ s = s.
Proof. reflexivity. Qed.

Lemma append_cons (c : ascii) (s t : string) :
  String c s +:+ t = String c (s +:+ t).
Proof. reflexivity. Qed.

Lemma append_nil_r (s : string) : s +:+ "" = s.
Proof.
  induction s as [|c s IH]; [done|].
  rewrite append_cons. by rewrite IH.
Qed.

Lemma append_assoc (a b c : string) : (a +:+ b) +:+ c = a +:+ (b +:+ c).
Proof.
  induction a as [|x a IH]; [reflexivity|].
  rewrite !append_cons. by rewrite IH.
Qed.

Lemma String_tail_inj (c : ascii) (s t : string) :
  String c s = String c t -> s = t.
Proof. intros H. by injection H. Qed.

(** A string without the separator is a single segment. *)
Lemma split_from_no_separator (sep cur n : string) :
  JS.includes n sep = false ->
  JS.split_from sep 0 cur n = [cur +:+ n].
Proof.
  revert cur. induction n as [|c n IH]; intros cur H.
  - cbn. by rewrite append_nil_r.
  - cbn [JS.includes] in H. apply orb_false_iff in H as [Hs Hi].
    cbn [JS.split_from]. rewrite Hs, IH by done.
    by rewrite append_assoc.
Qed.

Example split_twice :
  JS.split "screenshot://a://b" "://" = ["screenshot"; "a"; "b"].
Proof. reflexivity. Qed.

Example split_trailing : JS.split "a://" "://" = ["a"; ""].
Proof. reflexivity. Qed.

Example escape_controls :
  JS.escape (String "011"%char (String "010"%char (String JS.backslash "x")))
  = "\u000b\n\\x".
Proof. reflexivity. Qed.

(** ** [JSON.stringify] is injective on flat objects of strings *)

Lemma decodeChar_escapeChar (c : ascii) (r : string) :
  decodeChar (JS.escapeChar c +:+ r) = Some (c, r).
Proof. destruct c as [[] [] [] [] [] [] [] []]; reflexivity. Qed.

Lemma escape_inj (s1 s2 r1 r2 : string) :
  JS.escape s1 +:+ String JS.dquote r1 = JS.escape s2 +:+ String JS.dquote r2 ->
  s1 = s2 /\ r1 = r2.
Proof.
  revert s2. induction s1 as [|c1 s1 IH]; intros [|c2 s2] H; cbn [JS.escape] in H.
  - rewrite !append_nil_l in H. injection H as ->. done.
  - apply (f_equal decodeChar) in H.
    rewrite append_assoc, decodeChar_escapeChar in H. discriminate H.
  - apply (f_equal decodeChar) in H.
    rewrite append_assoc, decodeChar_escapeChar in H. discriminate H.
  - apply (f_equal decodeChar) in H.
    rewrite !append_assoc, !decodeChar_escapeChar in H.
    injection H as -> H. destruct (IH _ H) as [-> ->]. done.
Qed.

Lemma quote_inj (s1 s2 r1 r2 : string) :
  JS.quote s1 +:+ r1 = JS.quote s2 +:+ r2 -> s1 = s2 /\ r1 = r2.
Proof.
  unfold JS.quote.
  rewrite !append_cons, !append_assoc, !append_cons, !append_nil_l.
  intros H. apply String_tail_inj in H. by apply escape_inj.
Qed.

Lemma quote_head (s r : string) :
  exists t, JS.quote s +:+ r = String JS.dquote t.
Proof. unfold JS.quote. rewrite append_cons. eauto. Qed.

Lemma omap_property (fields : list (string * option string)) :
  omap JS.property fields = map encodePair (present fields).
Proof.
  induction fields as [|[k [v|]] fields IH]; cbn; [done| |done].
  unfold present in IH. by rewrite IH.
Qed.

Lemma encodePair_head (p : string * string) (r : string) :
  exists t, encodePair p +:+ r = String JS.dquote t.
Proof. unfold encodePair. rewrite append_assoc. apply quote_head. Qed.

Lemma encodePair_inj (p1 p2 : string * string) (r1 r2 : string) :
  encodePair p1 +:+ r1 = encodePair p2 +:+ r2 -> p1 = p2 /\ r1 = r2.
Proof.
  destruct p1 as [k1 v1], p2 as [k2 v2]. unfold encodePair. cbn [fst snd].
  rewrite !append_assoc. intros H.
  apply quote_inj in H as [-> H].
  change (":" +:+ ?r) with (String ":" r) in H. apply String_tail_inj in H.
  by apply quote_inj in H as [-> ->].
Qed.

Lemma join_cons (x : string) (l : list string) :
  JS.join "," (x :: l) +:+ "}" = x +:+ closing l.
Proof.
  destruct l as [|y l]; [reflexivity|].
  cbn [JS.join closing]. by rewrite !append_assoc.
Qed.

Lemma join_pairs_inj (l1 l2 : list (string * string)) :
  JS.join "," (map encodePair l1) +:+ "}"
    = JS.join "," (map encodePair l2) +:+ "}" ->
  l1 = l2.
Proof.
  revert l2. induction l1 as [|p1 l1 IH]; intros [|p2 l2] H; [done| | |].
  - cbn [map] in H. rewrite join_cons in H.
    destruct (encodePair_head p2 (closing (map encodePair l2))) as [t Ht].
    rewrite Ht in H. discriminate H.
  - cbn [map] in H. rewrite join_cons in H.
    destruct (encodePair_head p1 (closing (map encodePair l1))) as [t Ht].
    rewrite Ht in H. discriminate H.
  - cbn [map] in H. rewrite !join_cons in H.
    apply encodePair_inj in H as [-> H]. f_equal.
    destruct l1 as [|q1 l1], l2 as [|q2 l2]; cbn [map closing] in H; [done| | |].
    + rewrite append_cons in H. discriminate H.
    + rewrite append_cons in H. discriminate H.
    + apply IH. cbn [map]. rewrite !append_cons, !append_nil_l in H.
      by apply String_tail_inj in H.
Qed.

Lemma stringify_inj (f1 f2 : list (string * option string)) :
  JS.stringify f1 = JS.stringify f2 -> present f1 = present f2.
Proof.
  unfold JS.stringify. rewrite !omap_property, !append_cons, !append_nil_l.
  intros H. apply String_tail_inj in H. by apply join_pairs_inj.
Qed.

(** C6.  The session key is a function of the tuple
    (apiKey, projectId, modelClientOptions.apiKey, context id) and of
    nothing else, and it is injective: equal tuples give equal keys, and
    two configurations that differ in any of the four fields, be it by
    a different string or by one of them being absent, give different
    keys. *)
Theorem getSessionKey_deterministic_injective (c1 c2 : ConstructorParams) :
  getSessionKey c1 = getSessionKey c2 <-> c1 = c2.
Proof.
  split; [|by intros ->].
  intros H%stringify_inj. revert H.
  destruct c1 as [a1 b1 d1 e1], c2 as [a2 b2 d2 e2].
  destruct a1, a2, b1, b2, d1, d2, e1, e2; cbn; intros H; simplify_eq; reflexivity.
Qed.

Lemma getSessionKey_deterministic_injective_witness :
  getSessionKey someConfig <> getSessionKey otherConfig.
Proof.
  intros H.
  apply (proj1 (getSessionKey_deterministic_injective someConfig otherConfig)) in H.
  discriminate H.
Defined.

(** ** Session store *)

Lemma getStagehandConfig_Ok e apiKeys cfg :
  getStagehandConfig e apiKeys = Ok cfg ->
  JS.truthy (apiKey cfg) = true /\ JS.truthy (projectId cfg) = true
  /\ JS.truthy (modelApiKey cfg) = true.
Proof.
  unfold getStagehandConfig.
  destruct (JS.truthy (JS.or (field apiKeys browserbaseApiKey) (BROWSERBASE_API_KEY e))) eqn:H1;
  destruct (JS.truthy (JS.or (field apiKeys browserbaseProjectId) (BROWSERBASE_PROJECT_ID e))) eqn:H2;
  destruct (JS.truthy (JS.or (field apiKeys openaiApiKey) (OPENAI_API_KEY e))) eqn:H3;
  cbn; intros H; try discriminate H.
  injection H as <-. cbn. auto.
Qed.

Example getStagehandConfig_sample :
  getStagehandConfig noEnv someKeys = Ok someConfig.
Proof. reflexivity. Qed.

Example getStagehandConfig_missing :
  getStagehandConfig noEnv
    (Some {| browserbaseApiKey := Some "bb_live_1"; browserbaseProjectId := Some "";
             openaiApiKey := None |})
  = Throw "Missing required API keys: browserbaseProjectId openaiApiKey".
Proof. reflexivity. Qed.

Lemma createSession_valid w cfg key :
  JS.truthy (apiKey cfg) = true -> JS.truthy (projectId cfg) = true ->
  JS.truthy (modelApiKey cfg) = true ->
  createSession w cfg key =
    ({| sessions := sessions w; constructed := S (constructed w);
        closeCalls := closeCalls w |}, AwaitInit cfg key (constructed w)).
Proof. intros H1 H2 H3. unfold createSession. by rewrite H1, H2, H3. Qed.

Lemma step_getSession_absent o w apiKeys cfg :
  getStagehandConfig (procEnv o) apiKeys = Ok cfg ->
  sessions w !! getSessionKey cfg = None ->
  step o w (CallGetSession apiKeys) =
    ({| sessions := sessions w; constructed := S (constructed w);
        closeCalls := closeCalls w |},
     AwaitInit cfg (getSessionKey cfg) (constructed w)).
Proof.
  intros Hcfg Hnone. destruct (getStagehandConfig_Ok _ _ _ Hcfg) as (H1 & H2 & H3).
  cbn [step]. rewrite Hcfg. cbn zeta. rewrite Hnone.
  by apply createSession_valid.
Qed.

Lemma step_getSession_present o w apiKeys cfg existing :
  getStagehandConfig (procEnv o) apiKeys = Ok cfg ->
  sessions w !! getSessionKey cfg = Some existing ->
  pageDefined o = true ->
  step o w (CallGetSession apiKeys) =
    (w, AwaitEvaluate cfg (getSessionKey cfg) existing).
Proof.
  intros Hcfg Hsome Hpage. cbn [step]. rewrite Hcfg. cbn zeta.
  by rewrite Hsome, Hpage.
Qed.

Lemma step_init_resolved o w cfg key h :
  settled o = Ok tt -> pageDefined o = true ->
  step o w (AwaitInit cfg key h) =
    (setSessions w (<[key := {| stagehand := h; config := cfg;
                                lastUsed := now o |}]> (sessions w)),
     Returned h).
Proof. intros Hs Hp. cbn [step]. by rewrite Hs, Hp. Qed.

(** A failed construction is surfaced and installs nothing. *)
Lemma step_init_rejected o w cfg key h msg :
  settled o = Throw msg ->
  step o w (AwaitInit cfg key h) = (w, Thrown msg).
Proof. intros Hs. cbn [step]. by rewrite Hs. Qed.

Lemma step_evaluate_resolved o w cfg key existing :
  settled o = Ok tt ->
  step o w (AwaitEvaluate cfg key existing) =
    (setSessions w (touch (sessions w) key existing (now o)),
     Returned (stagehand existing)).
Proof. intros Hs. cbn [step]. by rewrite Hs. Qed.

Lemma step_evaluate_rejected o w cfg key existing msg :
  settled o = Throw msg ->
  JS.truthy (apiKey cfg) = true -> JS.truthy (projectId cfg) = true ->
  JS.truthy (modelApiKey cfg) = true ->
  step o w (AwaitEvaluate cfg key existing) =
    ({| sessions := delete key (sessions w); constructed := S (constructed w);
        closeCalls := closeCalls w |},
     AwaitInit cfg key (constructed w)).
Proof.
  intros Hs H1 H2 H3. cbn [step]. rewrite Hs.
  by rewrite createSession_valid.
Qed.

(** C1, as stated, fails.  Two [getSession] calls with the same keys start
    while the store is empty; each runs to its [await stagehand.init()]
    before the other is resumed.  Both have then constructed an instance
    (two constructions, the store still empty), and when they finish they
    return the two distinct instances; the record of the first is
    overwritten by the second. *)
Lemma getSession_concurrent_counterexample :
  let calls := [CallGetSession someKeys; CallGetSession someKeys] in
  let key := getSessionKey someConfig in
  run_pool [(0, fine noEnv 1); (1, fine noEnv 2)] (emptyWorld, calls)
    = ({| sessions := ∅; constructed := 2; closeCalls := [] |},
       [AwaitInit someConfig key 0; AwaitInit someConfig key 1])
  /\ let s := run_pool [(0, fine noEnv 1); (1, fine noEnv 2);
                        (0, fine noEnv 3); (1, fine noEnv 4)] (emptyWorld, calls) in
     s.2 = [Returned 0; Returned 1] /\ constructed s.1 = 2
     /\ sessions s.1 !! key
        = Some {| stagehand := 1; config := someConfig; lastUsed := 4 |}.
Proof. vm_compute. repeat split; reflexivity. Qed.

(** C1, amended.  When two [getSession] calls with the same keys run one
    after the other (the second starts once the first has returned),
    starting from a store with no record for their key, and construction
    and probe succeed, exactly one instance is constructed, both calls
    return it, and the store holds that one record for the key, its
    [lastUsed] refreshed by the second call. *)
Theorem getSession_one_after_the_other (w : World) (e : ProcessEnv)
    (apiKeys : option ApiKeys) (cfg : ConstructorParams) (t1 t2 t3 t4 : Z) :
  getStagehandConfig e apiKeys = Ok cfg ->
  sessions w !! getSessionKey cfg = None ->
  exists w1 w2,
    run_task [fine e t1; fine e t2] w (CallGetSession apiKeys)
      = (w1, Returned (constructed w))
    /\ run_task [fine e t3; fine e t4] w1 (CallGetSession apiKeys)
      = (w2, Returned (constructed w))
    /\ constructed w2 = S (constructed w)
    /\ sessions w2 !! getSessionKey cfg
       = Some {| stagehand := constructed w; config := cfg; lastUsed := t4 |}.
Proof.
  intros Hcfg Hnone.
  set (key := getSessionKey cfg) in *.
  set (record t := {| stagehand := constructed w; config := cfg; lastUsed := t |}).
  exists {| sessions := <[key := record t2]> (sessions w);
            constructed := S (constructed w); closeCalls := closeCalls w |}.
  exists {| sessions := <[key := record t4]> (sessions w);
            constructed := S (constructed w); closeCalls := closeCalls w |}.
  split; [|split; [|split]].
  - cbn [run_task]. rewrite (step_getSession_absent _ _ _ cfg) by done.
    by rewrite step_init_resolved.
  - cbn [run_task].
    rewrite (step_getSession_present _ _ _ cfg (record t2));
      [|done|apply lookup_insert_eq|done].
    rewrite step_evaluate_resolved by done.
    unfold setSessions, touch. cbn [sessions constructed closeCalls fine now].
    rewrite lookup_insert_eq. cbn [record stagehand config]. rewrite Nat.eqb_refl.
    by rewrite insert_insert_eq.
  - reflexivity.
  - apply lookup_insert_eq.
Qed.

Lemma getSession_one_after_the_other_witness :
  getStagehandConfig noEnv someKeys = Ok someConfig
  /\ sessions emptyWorld !! getSessionKey someConfig = None
  /\ exists w1 w2,
    run_task [fine noEnv 1; fine noEnv 2] emptyWorld (CallGetSession someKeys)
      = (w1, Returned (constructed emptyWorld))
    /\ run_task [fine noEnv 3; fine noEnv 4] w1 (CallGetSession someKeys)
      = (w2, Returned (constructed emptyWorld))
    /\ constructed w2 = S (constructed emptyWorld)
    /\ sessions w2 !! getSessionKey someConfig
       = Some {| stagehand := constructed emptyWorld; config := someConfig;
                 lastUsed := 4 |}.
Proof.
  split; [reflexivity|]. split; [reflexivity|].
  apply (getSession_one_after_the_other emptyWorld noEnv someKeys someConfig 1 2 3 4);
    reflexivity.
Defined.

(** C2, as stated, fails.  The store holds a record for the caller's
    keys and the probe fails with a time-out message, which is not in
    the "resource gone" class.  [getSession] does not rethrow it: a
    second instance is constructed and returned. *)
Lemma getSession_probe_failure_counterexample :
  Legacy.resourceGone timeoutMessage = false
  /\ sessions warmWorld !! getSessionKey someConfig = Some warmRecord
  /\ let r := run_task [fine noEnv 20; failing noEnv 21 timeoutMessage; fine noEnv 22]
                warmWorld (CallGetSession someKeys) in
     r.2 = Returned 1 /\ r.2 <> Thrown timeoutMessage /\ constructed r.1 = 2.
Proof. vm_compute. repeat split; try reflexivity. discriminate. Qed.

(** C2, amended.  When [getSession] finds a record and its liveness probe
    fails, the failure is not classified: whatever its message, the
    record is removed and a new instance is constructed on the spot; the
    probe failure itself is never rethrown.  (The removal applies to the
    store as it is when the probe settles.) *)
Theorem getSession_probe_failure_recreates (w w' : World) (o1 o2 : Obs)
    (apiKeys : option ApiKeys) (cfg : ConstructorParams)
    (existing : StagehandSession) (msg : string) :
  getStagehandConfig (procEnv o1) apiKeys = Ok cfg ->
  sessions w !! getSessionKey cfg = Some existing ->
  pageDefined o1 = true ->
  settled o2 = Throw msg ->
  step o1 w (CallGetSession apiKeys)
    = (w, AwaitEvaluate cfg (getSessionKey cfg) existing)
  /\ step o2 w' (AwaitEvaluate cfg (getSessionKey cfg) existing)
    = ({| sessions := delete (getSessionKey cfg) (sessions w');
          constructed := S (constructed w');
          closeCalls := closeCalls w' |},
       AwaitInit cfg (getSessionKey cfg) (constructed w')).
Proof.
  intros Hcfg Hsome Hpage Hfail.
  destruct (getStagehandConfig_Ok _ _ _ Hcfg) as (H1 & H2 & H3).
  split.
  - by apply step_getSession_present.
  - by apply (step_evaluate_rejected _ _ _ _ _ msg).
Qed.

Lemma getSession_probe_failure_recreates_witness :
  step (fine noEnv 20) warmWorld (CallGetSession someKeys)
    = (warmWorld, AwaitEvaluate someConfig (getSessionKey someConfig) warmRecord)
  /\ step (failing noEnv 21 timeoutMessage) warmWorld
       (AwaitEvaluate someConfig (getSessionKey someConfig) warmRecord)
    = ({| sessions := delete (getSessionKey someConfig) (sessions warmWorld);
          constructed := S (constructed warmWorld);
          closeCalls := closeCalls warmWorld |},
       AwaitInit someConfig (getSessionKey someConfig) (constructed warmWorld)).
Proof.
  apply (getSession_probe_failure_recreates warmWorld warmWorld
           (fine noEnv 20) (failing noEnv 21 timeoutMessage) someKeys someConfig
           warmRecord timeoutMessage);
    reflexivity.
Defined.

(** The synchronous half of the probe: a record whose instance has no
    page is removed and recreated in the same turn. *)
Lemma getSession_missing_page_recreates (w : World) (o : Obs)
    (apiKeys : option ApiKeys) (cfg : ConstructorParams)
    (existing : StagehandSession) :
  getStagehandConfig (procEnv o) apiKeys = Ok cfg ->
  sessions w !! getSessionKey cfg = Some existing ->
  pageDefined o = false ->
  step o w (CallGetSession apiKeys)
    = ({| sessions := delete (getSessionKey cfg) (sessions w);
          constructed := S (constructed w);
          closeCalls := closeCalls w |},
       AwaitInit cfg (getSessionKey cfg) (constructed w)).
Proof.
  intros Hcfg Hsome Hpage.
  destruct (getStagehandConfig_Ok _ _ _ Hcfg) as (H1 & H2 & H3).
  cbn [step]. rewrite Hcfg. cbn zeta. rewrite Hsome, Hpage. cbn [negb].
  by rewrite createSession_valid.
Qed.


Example resourceGone_samples :
  Legacy.resourceGone "page.evaluate: Target page, context or browser has been closed" = true
  /\ Legacy.resourceGone "Session expired" = true
  /\ Legacy.resourceGone "Execution context was destroyed, most likely because of a navigation" = false
  /\ Legacy.resourceGone "net::ERR_CONNECTION_RESET" = false
  /\ Legacy.resourceGone "frame context destroyed" = true.
Proof. vm_compute. repeat split; reflexivity. Qed.

(** C7.  A [closeSession] call whose keys are valid and whose key has a
    record ends without throwing and with no record under that key,
    however [page.close()] settles ([o2] is arbitrary) and even when
    reading [page] throws; the other records are as they were.  The
    removal is carried out on the store as it is when the close settles
    ([w'] is arbitrary). *)
Theorem closeSession_removes_record (w w' : World) (o1 o2 : Obs)
    (apiKeys : option ApiKeys) (cfg : ConstructorParams)
    (session : StagehandSession) :
  getStagehandConfig (procEnv o1) apiKeys = Ok cfg ->
  sessions w !! getSessionKey cfg = Some session ->
  (run_task [o1; o2] w (CallCloseSession apiKeys)).2 = ReturnedVoid
  /\ sessions (run_task [o1; o2] w (CallCloseSession apiKeys)).1
       !! getSessionKey cfg = None
  /\ (forall k, k <> getSessionKey cfg ->
        sessions (run_task [o1; o2] w (CallCloseSession apiKeys)).1 !! k
        = sessions w !! k)
  /\ (pageDefined o1 = true ->
        step o1 w (CallCloseSession apiKeys)
        = ({| sessions := sessions w; constructed := constructed w;
              closeCalls := stagehand session :: closeCalls w |},
           AwaitClose (getSessionKey cfg)))
  /\ (step o2 w' (AwaitClose (getSessionKey cfg))).2 = ReturnedVoid
  /\ sessions (step o2 w' (AwaitClose (getSessionKey cfg))).1
       !! getSessionKey cfg = None
  /\ (forall k, k <> getSessionKey cfg ->
        sessions (step o2 w' (AwaitClose (getSessionKey cfg))).1 !! k
        = sessions w' !! k).
Proof.
  intros Hcfg Hsome.
  assert (forall v, step o2 v (AwaitClose (getSessionKey cfg))
            = (setSessions v (delete (getSessionKey cfg) (sessions v)), ReturnedVoid))
    as Hstep.
  { intros v. cbn [step]. by destruct (settled o2). }
  assert (step o1 w (CallCloseSession apiKeys)
          = if negb (pageDefined o1)
            then (setSessions w (delete (getSessionKey cfg) (sessions w)), ReturnedVoid)
            else ({| sessions := sessions w; constructed := constructed w;
                     closeCalls := stagehand session :: closeCalls w |},
                  AwaitClose (getSessionKey cfg))) as Hfirst.
  { cbn [step]. rewrite Hcfg. cbn zeta. by rewrite Hsome. }
  cbn [run_task]. rewrite Hfirst, !Hstep.
  destruct (pageDefined o1); cbn [negb].
  - rewrite Hstep. cbn [fst snd setSessions sessions].
    repeat split; try apply lookup_delete_eq;
      intros k Hk; by apply lookup_delete_ne.
  - cbn [step fst snd setSessions sessions].
    repeat split; try apply lookup_delete_eq; try discriminate;
      intros k Hk; by apply lookup_delete_ne.
Qed.

Lemma closeSession_removes_record_witness :
  let r := run_task [fine noEnv 30; failing noEnv 31 "Target closed"] warmWorld
             (CallCloseSession someKeys) in
  r.2 = ReturnedVoid /\ sessions r.1 !! getSessionKey someConfig = None.
Proof.
  pose proof (closeSession_removes_record warmWorld warmWorld (fine noEnv 30)
                (failing noEnv 31 "Target closed") someKeys someConfig warmRecord)
    as H.
  destruct H as (H1 & H2 & _); [reflexivity | reflexivity |].
  split; [exact H1 | exact H2].
Defined.

(** ** Sweep *)

Lemma stale_true (t : Z) (session : StagehandSession) :
  stale t session = true <-> (t - lastUsed session > sessionTimeout)%Z.
Proof. unfold stale. rewrite Z.gtb_ltb, Z.ltb_lt. lia. Qed.

Lemma lookup_foldl_delete (ks : list string)
    (m : gmap string StagehandSession) (k : string) :
  foldl (fun m key => delete key m) m ks !! k =
    if decide (k ∈ ks) then None else m !! k.
Proof.
  revert m. induction ks as [|x ks IH]; intros m; cbn [foldl].
  - rewrite decide_False; [done|]. apply not_elem_of_nil.
  - rewrite IH. destruct (decide (k ∈ ks)) as [Hin|Hin].
    + rewrite decide_True; [done|]. rewrite elem_of_cons; tauto.
    + destruct (decide (k = x)) as [->|Hne].
      * rewrite decide_True by (rewrite elem_of_cons; tauto).
        apply lookup_delete_eq.
      * rewrite decide_False by (rewrite elem_of_cons; tauto).
        by apply lookup_delete_ne.
Qed.

Lemma sweepAlone_returned (fuel : nat) t page closeResult (w : World) :
  sweepAlone fuel t page closeResult w SweepReturned = (w, SweepReturned).
Proof. induction fuel as [|fuel IH]; [done|]. cbn. apply IH. Qed.

(** The sweep running alone from the iterator's position [entries]:
    every stale entry is collected, and closed when it has a page. *)
Lemma sweepAlone_from (t : Z) (page : nat -> bool) (closeResult : nat -> Result unit)
    (m : gmap string StagehandSession) (entries : list (string * StagehandSession)) :
  (forall k r, (k, r) ∈ entries -> m !! k = Some r) ->
  forall (fuel : nat) (w : World) (keys : list string),
    sessions w = m ->
    length entries <= fuel ->
    sweepAlone fuel t page closeResult
      (sweepFrom t page w entries.*1 keys).1 (sweepFrom t page w entries.*1 keys).2
    = ({| sessions := foldl (fun m key => delete key m) m
                        (keys ++ (filter (isStale t) entries).*1);
          constructed := constructed w;
          closeCalls :=
            (reverse ((fun kv => stagehand kv.2)
                        <$> filter (fun kv => isStale t kv /\ page (stagehand kv.2) = true)
                              entries)
               ++ closeCalls w)%list |},
       SweepReturned).
Proof.
  induction entries as [|[key session] rest IH]; intros Hm fuel w keys Hw Hfuel.
  - cbn. rewrite sweepAlone_returned. rewrite app_nil_r, Hw. by destruct w.
  - assert (forall k r, (k, r) ∈ rest -> m !! k = Some r) as Hrest.
    { intros k r Hin. apply Hm. apply elem_of_cons. by right. }
    assert (sessions w !! key = Some session) as Hkey.
    { rewrite Hw. apply Hm. apply elem_of_cons. by left. }
    cbn [fmap list_fmap fst sweepFrom]. rewrite Hkey.
    rewrite !filter_cons.
    destruct (stale t session) eqn:Hst.
    + apply stale_true in Hst.
      rewrite (decide_True (P := isStale t (key, session))) by exact Hst.
      destruct (page (stagehand session)) eqn:Hp.
      * rewrite decide_True by (split; [exact Hst|exact Hp]).
        cbn [fst snd].
        destruct fuel as [|fuel]; [cbn in Hfuel; lia|].
        cbn [sweepAlone sweepTurn closeSettled pageOf].
        set (w1 := {| sessions := sessions w; constructed := constructed w;
                      closeCalls := stagehand session :: closeCalls w |}).
        assert (sweepAlone fuel t page closeResult
                  (sweepFrom t page w1 rest.*1 (keys ++ [key])).1
                  (sweepFrom t page w1 rest.*1 (keys ++ [key])).2
                = ({| sessions := foldl (fun m key => delete key m) m
                                    ((keys ++ [key]) ++ (filter (isStale t) rest).*1);
                      constructed := constructed w1;
                      closeCalls :=
                        (reverse ((fun kv => stagehand kv.2)
                           <$> filter (fun kv => isStale t kv /\ page (stagehand kv.2) = true)
                                 rest)
                           ++ closeCalls w1)%list |}, SweepReturned)) as E.
        { apply IH; [done|by cbn|cbn in Hfuel; lia]. }
        destruct (closeResult (stagehand session));
          destruct (sweepFrom t page w1 rest.*1 (keys ++ [key])) as [w2 s2];
          cbn [fst snd] in E; rewrite E; cbn [constructed closeCalls w1];
          cbn [fmap list_fmap fst snd]; rewrite reverse_cons, <- !app_assoc; done.
      * rewrite decide_False by (intros [_ H]; cbn in H; congruence).
        rewrite (IH Hrest fuel w (keys ++ [key])%list Hw) by (cbn in Hfuel; lia).
        cbn [fmap list_fmap fst snd]. by rewrite <- !app_assoc.
    + assert (~ isStale t (key, session)) as Hn.
      { unfold isStale. cbn. intros Hc. apply stale_true in Hc. congruence. }
      rewrite (decide_False (P := isStale t (key, session))) by exact Hn.
      rewrite decide_False by (intros [H _]; by apply Hn).
      apply IH; [done..|cbn in Hfuel; lia].
Qed.

(** The sweep run with no other call resumed while it waits on a close. *)
Lemma cleanupStaleSessions_eq (t : Z) (page : nat -> bool)
    (closeResult : nat -> Result unit) (w : World) :
  cleanupStaleSessions t page closeResult w =
    ({| sessions := filter (fun kv => ~ isStale t kv) (sessions w);
        constructed := constructed w;
        closeCalls :=
          (reverse ((fun kv => stagehand kv.2)
                      <$> filter (fun kv => isStale t kv /\ page (stagehand kv.2) = true)
                            (map_to_list (sessions w)))
             ++ closeCalls w)%list |}, SweepReturned).
Proof.
  unfold cleanupStaleSessions. cbn [sweepAlone sweepTurn clock pageOf].
  pose proof (sweepAlone_from t page closeResult (sessions w) (map_to_list (sessions w))
                (fun k r H => proj1 (elem_of_map_to_list _ _ _) H)
                (size (sessions w)) w [] eq_refl) as E.
  rewrite length_map_to_list in E. specialize (E (le_n _)).
  destruct (sweepFrom t page w (map_to_list (sessions w)).*1 []) as [w1 s1].
  cbn [fst snd] in E. rewrite E. cbn [app].
  f_equal. f_equal. apply map_eq. intros k.
  rewrite lookup_foldl_delete, map_lookup_filter.
  destruct (sessions w !! k) as [session|] eqn:Hk; cbn.
  - destruct (decide (k ∈ (filter (isStale t) (map_to_list (sessions w))).*1))
      as [Hin|Hin].
    + apply list_elem_of_fmap in Hin as ([k' s'] & -> & Hin).
      apply list_elem_of_filter in Hin as [Hst Hin].
      apply elem_of_map_to_list in Hin. cbn in Hin, Hk.
      rewrite Hk in Hin. injection Hin as <-.
      rewrite option_guard_False; [done|]. tauto.
    + rewrite option_guard_True; [done|]. intros Hst. apply Hin.
      apply list_elem_of_fmap. exists (k, session). split; [done|].
      apply list_elem_of_filter. split; [exact Hst|].
      by apply elem_of_map_to_list.
  - destruct (decide _); done.
Qed.

(** Counting the entries of a store that satisfy [P]. *)
Lemma length_filter_map_to_list (P : string * StagehandSession -> Prop)
    `{forall kv, Decision (P kv)} (m : gmap string StagehandSession) :
  length (filter P (map_to_list m)) = size (filter P m).
Proof.
  rewrite map_filter_alt, map_size_list_to_map; [done|].
  apply NoDup_fmap_fst.
  - intros k x y [_ H1]%list_elem_of_filter [_ H2]%list_elem_of_filter.
    apply elem_of_map_to_list in H1, H2. congruence.
  - apply NoDup_filter, NoDup_map_to_list.
Qed.

(** C5, as stated, fails.  The sweep waits on [page.close()] (line 520)
    and deletes the keys it collected only after its loop (line 528).
    Here it is called at time 400000 on a store whose one record was
    last used at time 10, closes instance 0 and waits.  A [getSession]
    for the same keys runs meanwhile: its probe fails on the closed
    page, it deletes the record, constructs instance 1 and installs a
    record last used at 400003, which is not stale at 400000.  The
    sweep resumes, finds that record not stale, and then deletes its
    key: the record is removed although [now - lastUsed <= ttl], and
    its instance 1 is never closed while the caller holds it. *)
Lemma cleanupStaleSessions_interleaved_counterexample :
  let key := getSessionKey someConfig in
  let jobs := [SweepOf SweepCall; CallOf (CallGetSession someKeys)] in
  let untilReturn :=
    [ (0, PassOf {| clock := 400000; pageOf := fun _ => true; closeSettled := Ok tt |});
      (1, TurnOf (fine noEnv 400001));
      (1, TurnOf (failing noEnv 400002 "Target page, context or browser has been closed"));
      (1, TurnOf (fine noEnv 400003)) ] in
  let resume :=
    [ (0, PassOf {| clock := 400004; pageOf := fun _ => true; closeSettled := Ok tt |}) ] in
  let mid := run_jobs untilReturn (warmWorld, jobs) in
  let s := run_jobs resume mid in
  sessions warmWorld !! key = Some warmRecord
  /\ stale 400000 warmRecord = true
  /\ mid.2 !! 1 = Some (CallOf (Returned 1))
  /\ sessions mid.1 !! key
     = Some {| stagehand := 1; config := someConfig; lastUsed := 400003 |}
  /\ stale 400000 {| stagehand := 1; config := someConfig; lastUsed := 400003 |} = false
  /\ s.2 = [SweepOf SweepReturned; CallOf (Returned 1)]
  /\ sessions s.1 !! key = None
  /\ closeCalls s.1 = [0].
Proof. vm_compute. repeat split; reflexivity. Qed.

(** C5, amended.  Called at time [t] on any store, with no other call
    resumed while it waits on a close, and with [page.close()] settling
    in any way on each instance, the sweep returns normally; the store
    it leaves is the old one restricted to the records with
    [t - lastUsed <= sessionTimeout], each of them unchanged; and
    [page.close()] was invoked on the instances of the records with
    [t - lastUsed > sessionTimeout] whose page is defined, once per such
    record, and on no other. *)
Theorem cleanupStaleSessions_exact (t : Z) (page : nat -> bool)
    (closeResult : nat -> Result unit) (w : World) :
  exists newly,
    cleanupStaleSessions t page closeResult w =
      ({| sessions :=
            filter (fun kv => ~ (t - lastUsed kv.2 > sessionTimeout)%Z) (sessions w);
          constructed := constructed w;
          closeCalls := (newly ++ closeCalls w)%list |}, SweepReturned)
    /\ (forall h, h ∈ newly <->
          exists key session, sessions w !! key = Some session
             /\ (t - lastUsed session > sessionTimeout)%Z
             /\ page (stagehand session) = true
             /\ stagehand session = h)
    /\ length newly
       = size (filter (fun kv => (t - lastUsed kv.2 > sessionTimeout)%Z
                                 /\ page (stagehand kv.2) = true) (sessions w)).
Proof.
  rewrite cleanupStaleSessions_eq. eexists. split; [reflexivity|]. split.
  - intros h. rewrite elem_of_reverse, list_elem_of_fmap. split.
    + intros ([k s] & -> & Hin). apply list_elem_of_filter in Hin as [[Hst Hp] Hin].
      apply elem_of_map_to_list in Hin. exists k, s. auto.
    + intros (k & s & Hk & Hst & Hp & <-). exists (k, s). split; [done|].
      apply list_elem_of_filter. split; [by split|].
      by apply elem_of_map_to_list.
  - rewrite length_reverse, length_fmap.
    apply (length_filter_map_to_list
             (fun kv => isStale t kv /\ page (stagehand kv.2) = true)).
Qed.

(** At time 300011 the record last used at 10 is idle for 300001 ms and
    goes, the one used at 11 stays; the first has no page, so nothing
    is closed. *)
Example cleanupStaleSessions_sample :
  let r := cleanupStaleSessions 300011 (fun h => Nat.eqb h 1)
             (fun _ => Throw "Target closed") coldWorld in
  sessions r.1 !! "a" = None
  /\ sessions r.1 !! "b"
     = Some {| stagehand := 1; config := otherConfig; lastUsed := 11 |}
  /\ closeCalls r.1 = [] /\ r.2 = SweepReturned.
Proof. vm_compute. repeat split; reflexivity. Qed.

(** One millisecond later both go; both have a page and both closes
    fail, which does not stop the sweep. *)
Example cleanupStaleSessions_sample_closed :
  let r := cleanupStaleSessions 300012 (fun _ => true)
             (fun _ => Throw "Target closed") coldWorld in
  sessions r.1 = ∅ /\ r.2 = SweepReturned
  /\ (0 ∈ closeCalls r.1 /\ 1 ∈ closeCalls r.1 /\ length (closeCalls r.1) = 2).
Proof.
  vm_compute. split; [reflexivity|]. split; [reflexivity|].
  repeat split; repeat constructor.
Qed.

(** ** CallTool dispatch *)

(** C3, as stated, fails.  A call for a tool that is not in the table is
    answered with an object carrying [error: {code: -32603, message}],
    not with a result tagged [isError]; the same holds when the name is
    absent. *)
Lemma callTool_unknown_name_counterexample :
  existsb (String.eqb "stagehand_fly") someTools = false
  /\ Dispatcher.callTool someTools healthy (Some "stagehand_fly")
     = Dispatcher.ErrorObject (-32603)
         "Internal error: Invalid tool name: stagehand_fly"
  /\ Dispatcher.isErrorNaming "stagehand_fly"
       (Dispatcher.callTool someTools healthy (Some "stagehand_fly")) = false
  /\ Dispatcher.isErrorNaming "undefined"
       (Dispatcher.callTool someTools healthy None) = false.
Proof. vm_compute. repeat split; reflexivity. Qed.

(** C3, amended.  For every CallTool request whose tool name is absent,
    empty or not the name of an entry of [TOOLS], the handler returns an
    object with an [error] member of code -32603 whose message is
    "Internal error: Invalid tool name: " followed by the name
    ("undefined" when it is absent); no collaborator is consulted. *)
Theorem callTool_invalid_name (TOOLS : list string)
    (c : Dispatcher.Collaborators) (name : option string) :
  (name = None \/ name = Some "" \/
   exists n, name = Some n /\ existsb (String.eqb n) TOOLS = false) ->
  Dispatcher.callTool TOOLS c name
    = Dispatcher.ErrorObject (-32603)
        ("Internal error: Invalid tool name: " +:+ Dispatcher.showName name).
Proof.
  intros [-> | [-> | (n & -> & Hn)]]; cbn; [done..|].
  rewrite Hn. cbn. by rewrite orb_true_r.
Qed.

Lemma callTool_invalid_name_witness :
  Dispatcher.callTool someTools healthy (Some "stagehand_fly")
    = Dispatcher.ErrorObject (-32603)
        ("Internal error: Invalid tool name: "
           +:+ Dispatcher.showName (Some "stagehand_fly")).
Proof.
  apply (callTool_invalid_name someTools healthy (Some "stagehand_fly")).
  right. right. exists "stagehand_fly". split; reflexivity.
Defined.

(** With a known name, a failure of a collaborator is what yields the
    [isError] result. *)
Example callTool_operation_failure :
  Dispatcher.callTool someTools
    {| Dispatcher.ensured := Throw "Missing required API keys: openaiApiKey";
       Dispatcher.handled := fun _ _ => Ok (Dispatcher.ToolResult ["done"] false);
       Dispatcher.operationLogs := ["one"; "two"] |}
    (Some "stagehand_act")
  = Dispatcher.ToolResult
      [ "Failed to initialize Stagehand: Missing required API keys: openaiApiKey";
        "Operation logs:" +:+ Dispatcher.newline +:+ "one" +:+ Dispatcher.newline +:+ "two" ]
      true.
Proof. reflexivity. Qed.

(** ** Connection registry *)

(** C4, as stated, fails.  Two streams that come up with the same
    session id: the second registration raises nothing and replaces the
    entry of the first. *)
Lemma sse_register_twice_counterexample :
  let r1 := Sse.sse validKeys (Ok tt) (Some "5f2c") firstConnection ∅ in
  let r2 := Sse.sse validKeys (Ok tt) (Some "5f2c") secondConnection r1.1 in
  r1.1 !! "5f2c" = Some firstConnection
  /\ r2.2 = None
  /\ r2.1 !! "5f2c" = Some secondConnection.
Proof. vm_compute. repeat split; reflexivity. Qed.

(** C4, amended.  Registering a session id that is already present
    replaces the existing entry with the new connection, without any
    error and without touching the entries of other ids. *)
Theorem sse_register_replaces (apiKeys : ApiKeys) (id : string)
    (c old : Sse.Connection) (registry : gmap string Sse.Connection) :
  JS.truthy (browserbaseApiKey apiKeys) = true ->
  JS.truthy (browserbaseProjectId apiKeys) = true ->
  JS.truthy (openaiApiKey apiKeys) = true ->
  id <> "" ->
  registry !! id = Some old ->
  let r := Sse.sse apiKeys (Ok tt) (Some id) c registry in
  r.2 = None
  /\ r.1 !! id = Some c
  /\ forall other, other <> id -> r.1 !! other = registry !! other.
Proof.
  intros H1 H2 H3 Hid Hold. unfold Sse.sse. rewrite H1, H2, H3. cbn [negb orb].
  assert (JS.truthy (Some id) = true) as ->.
  { cbn. apply negb_true_iff. by apply String.eqb_neq. }
  cbn [fst snd]. repeat split.
  - apply lookup_insert_eq.
  - intros other Hne. by apply lookup_insert_ne.
Qed.

Lemma sse_register_replaces_witness :
  let registry : gmap string Sse.Connection := {[ "5f2c" := firstConnection ]} in
  let r := Sse.sse validKeys (Ok tt) (Some "5f2c") secondConnection registry in
  r.2 = None
  /\ r.1 !! "5f2c" = Some secondConnection
  /\ forall other, other <> "5f2c" -> r.1 !! other = registry !! other.
Proof.
  apply (sse_register_replaces validKeys "5f2c" secondConnection firstConnection
           {[ "5f2c" := firstConnection ]}); try reflexivity.
  discriminate.
Defined.

(** Removal is idempotent. *)
Lemma remove_idempotent (id : string) (registry : gmap string Sse.Connection) :
  Sse.remove id (Sse.remove id registry) = Sse.remove id registry
  /\ (registry !! id = None -> Sse.remove id registry = registry).
Proof.
  unfold Sse.remove. split.
  - apply delete_id. apply lookup_delete_eq.
  - apply delete_id.
Qed.

(** C8, as stated, fails at one input.  A request that supplies
    [sessionId] as the empty string, for which no connection is
    registered, is answered 400 and not 503. *)
Lemma messages_empty_sessionId_counterexample :
  (∅ : gmap string Sse.Connection) !! "" = None
  /\ Sse.messages (Some "") (Ok tt) false false ∅
     = (∅, Sse.Replied {| Sse.status := 400;
                          Sse.body := "Missing sessionId parameter" |})
  /\ Sse.messages (Some "") (Ok tt) false false ∅
     <> (∅, Sse.Replied {| Sse.status := 503;
                           Sse.body := "No active SSE connection for session " +:+ "" |}).
Proof. repeat split. discriminate. Qed.

(** C8, amended.  For every message-post request: if the [sessionId]
    query parameter is missing or empty the response status is 400; if a
    non-empty [sessionId] X is supplied but no connection is registered
    for X the response status is 503 with body exactly
    "No active SSE connection for session X"; in both cases the registry
    is left as it was. *)
Theorem messages_missing_or_unknown (sessionId : option string)
    (called : Result unit) (raised headersSent : bool)
    (registry : gmap string Sse.Connection) :
  (JS.truthy sessionId = false ->
     Sse.messages sessionId called raised headersSent registry
       = (registry, Sse.Replied {| Sse.status := 400;
                                   Sse.body := "Missing sessionId parameter" |}))
  /\ (forall X, sessionId = Some X -> X <> "" -> registry !! X = None ->
        Sse.messages sessionId called raised headersSent registry
          = (registry, Sse.Replied {| Sse.status := 503;
                 Sse.body := "No active SSE connection for session " +:+ X |})).
Proof.
  split.
  - intros Hf. unfold Sse.messages. destruct sessionId as [id|]; [|done].
    by rewrite Hf.
  - intros X -> HX Hnone. unfold Sse.messages.
    assert (JS.truthy (Some X) = true) as ->.
    { cbn. apply negb_true_iff. by apply String.eqb_neq. }
    cbn [negb]. by rewrite Hnone.
Qed.

Lemma messages_missing_or_unknown_witness :
  let registry : gmap string Sse.Connection := {[ "5f2c" := firstConnection ]} in
  Sse.messages None (Ok tt) false false registry
    = (registry, Sse.Replied {| Sse.status := 400;
                                Sse.body := "Missing sessionId parameter" |})
  /\ Sse.messages (Some "77aa") (Ok tt) false false registry
    = (registry, Sse.Replied {| Sse.status := 503;
           Sse.body := "No active SSE connection for session " +:+ "77aa" |}).
Proof.
  split.
  - apply (proj1 (messages_missing_or_unknown None (Ok tt) false false
                    {[ "5f2c" := firstConnection ]})).
    reflexivity.
  - apply (proj2 (messages_missing_or_unknown (Some "77aa") (Ok tt) false false
                    {[ "5f2c" := firstConnection ]}) "77aa");
      [reflexivity | discriminate | reflexivity].
Defined.

(** A post for a registered id is handed to its transport; when the
    transport reports an error through [onerror] while handling it (a
    post whose content type is not JSON, say), the connection is no
    longer registered afterwards. *)
Example messages_forwarded :
  Sse.messages (Some "5f2c") (Ok tt) false false {[ "5f2c" := firstConnection ]}
  = ({[ "5f2c" := firstConnection ]}, Sse.Forwarded firstConnection None)
  /\ Sse.messages (Some "5f2c") (Ok tt) true true {[ "5f2c" := firstConnection ]}
  = (∅, Sse.Forwarded firstConnection None).
Proof.
  split; [reflexivity|]. unfold Sse.messages, Sse.remove. cbn.
  rewrite lookup_singleton_eq. by rewrite delete_singleton_eq.
Qed.

(** ** Screenshot resources *)

Import Resources.

Lemma split_screenshot_uri (rest : string) :
  JS.split ("screenshot://" +:+ rest) "://"
    = "screenshot" :: JS.split_from "://" 0 "" rest.
Proof. reflexivity. Qed.

Lemma startsWith_screenshot_uri (rest : string) :
  JS.startsWith ("screenshot://" +:+ rest) "screenshot://" = true.
Proof. reflexivity. Qed.

Lemma readResource_screenshot_uri (n : string) (st : Store) :
  JS.includes n "://" = false ->
  readResource ("screenshot://" +:+ n) st =
    match screenshots st !! n with
    | Some d =>
        if String.eqb d "" then notFound ("screenshot://" +:+ n)
        else Ok [ {| uri := "screenshot://" +:+ n; mimeType := "image/png"; blob := d |} ]
    | None => notFound ("screenshot://" +:+ n)
    end.
Proof.
  intros Hn. unfold readResource.
  rewrite startsWith_screenshot_uri, split_screenshot_uri, split_from_no_separator by done.
  cbn [lookup list_lookup]. change ("" +:+ n) with n.
  destruct (screenshots st !! n) as [d|]; [|done].
  cbn [JS.truthy]. by destruct (String.eqb d "").
Qed.

(** The loop of [cleanupSessionScreenshots]: what it leaves in the map
    and what it counts. *)
Lemma foldl_deleteCounting_lookup (l : list string) (m : gmap string string) (c : nat) (k : string) :
  (foldl deleteCounting (m, c) l).1 !! k = if decide (k ∈ l) then None else m !! k.
Proof.
  revert m c. induction l as [|x l IH]; intros m c; cbn [foldl].
  - rewrite decide_False; [done|]. apply not_elem_of_nil.
  - assert (deleteCounting (m, c) x = (delete x m, if m !! x is Some _ then S c else c)) as ->.
    { unfold deleteCounting. cbn [fst snd]. destruct (m !! x) eqn:Hx; [done|].
      by rewrite delete_id. }
    rewrite IH. destruct (decide (k ∈ l)) as [Hin|Hin].
    + rewrite decide_True; [done|]. rewrite elem_of_cons; tauto.
    + destruct (decide (k = x)) as [->|Hne].
      * rewrite decide_True by (rewrite elem_of_cons; tauto). apply lookup_delete_eq.
      * rewrite decide_False by (rewrite elem_of_cons; tauto). by apply lookup_delete_ne.
Qed.

Lemma filter_present_delete (x : string) (l : list string) (m : gmap string string) :
  x ∉ l ->
  filter (fun y => is_Some (delete x m !! y)) l = filter (fun y => is_Some (m !! y)) l.
Proof.
  induction l as [|y l IH]; intros Hx; [done|].
  apply not_elem_of_cons in Hx as [Hne Hx].
  rewrite !filter_cons, IH by done.
  rewrite lookup_delete_ne by done.
  reflexivity.
Qed.

Lemma foldl_deleteCounting_count (l : list string) (m : gmap string string) (c : nat) :
  NoDup l ->
  (foldl deleteCounting (m, c) l).2
    = c + length (filter (fun x => is_Some (m !! x)) l).
Proof.
  revert m c. induction l as [|x l IH]; intros m c Hnd; cbn [foldl].
  - cbn. lia.
  - apply NoDup_cons in Hnd as [Hx Hnd].
    pose proof (filter_present_delete x l m Hx) as Hf.
    rewrite filter_cons. unfold deleteCounting at 2. cbn [fst snd].
    destruct (m !! x) eqn:Hm.
    + rewrite decide_True by eauto. rewrite IH by done. rewrite Hf. cbn. lia.
    + rewrite decide_False by (intros [? ?]; done). by rewrite IH.
Qed.

Lemma exec_preserves (n d : string) (op : Op) (st : Store) :
  ~ touches n st op ->
  screenshots st !! n = Some d ->
  screenshots (exec op st) !! n = Some d.
Proof.
  destruct op as [sid name data|sid]; cbn [touches exec].
  - intros Hne Hn. unfold addScreenshot. cbn [screenshots].
    by rewrite lookup_insert_ne.
  - intros Hnot Hn. unfold cleanupSessionScreenshots.
    destruct (sessionScreenshots st !! sid) as [shots|]; [|done].
    destruct (foldl deleteCounting (screenshots st, 0) (elements shots)) as [m c] eqn:Hf.
    cbn [fst screenshots].
    change m with (m, c).1. rewrite <- Hf, foldl_deleteCounting_lookup.
    rewrite decide_False; [done|]. by rewrite elem_of_elements.
Qed.

Lemma execAll_preserves (n d : string) (ops : list Op) (st : Store) :
  undisturbed n st ops ->
  screenshots st !! n = Some d ->
  screenshots (execAll ops st) !! n = Some d.
Proof.
  revert st. induction ops as [|op ops IH]; intros st; cbn; [done|].
  intros [Hop Hrest] Hn. apply IH; [done|]. by apply exec_preserves.
Qed.

(** C9, as stated, fails.  (1) A screenshot stored with empty data is
    reported as not found.  (2) A screenshot whose name contains "://"
    cannot be read back under its uri.  (3) A uri that names no stored
    screenshot ("a://b" is not stored) is served from the screenshot
    "a".  (4) The screenshot of session "s" disappears when another
    session that used the same name is cleaned up, with no later
    [addScreenshot] of that name and no cleanup of "s". *)
Lemma readResource_counterexample :
  (* empty data *)
  readResource "screenshot://shot" (addScreenshot "s" "shot" "" emptyStore)
    = Throw "Resource not found: screenshot://shot"
  (* a name containing the separator *)
  /\ readResource "screenshot://a://b" (addScreenshot "s" "a://b" "iVBORw0KGgo=" emptyStore)
    = Throw "Resource not found: screenshot://a://b"
  (* a uri naming no stored screenshot, served from another one *)
  /\ screenshots (addScreenshot "s" "a" "iVBORw0KGgo=" emptyStore) !! "a://b" = None
  /\ readResource "screenshot://a://b" (addScreenshot "s" "a" "iVBORw0KGgo=" emptyStore)
    = Ok [ {| uri := "screenshot://a://b"; mimeType := "image/png"; blob := "iVBORw0KGgo=" |} ]
  (* the cleanup of another session *)
  /\ readResource "screenshot://shot"
       (execAll [Cleanup "s0"]
          (addScreenshot "s" "shot" "iVBORw0KGgo="
             (addScreenshot "s0" "shot" "AAAA" emptyStore)))
    = Throw "Resource not found: screenshot://shot".
Proof. vm_compute. repeat split; reflexivity. Qed.

(** C9, amended.  For every session id [s], every name [n] that does not
    contain "://" and every non-empty [d]: after [addScreenshot s n d]
    and through any later operations among which there is no
    [addScreenshot] with the name [n] and no [cleanupSessionScreenshots]
    of a session that tracks [n], [readResource] of "screenshot://" + n
    returns a single content with that uri, mime type "image/png" and
    blob [d].  For every uri that does not start with "screenshot://",
    and for every uri "screenshot://" + n with [n] free of "://" and not
    stored, [readResource] throws "Resource not found: " followed by the
    uri. *)
Theorem readResource_after_addScreenshot :
  (forall (s n d : string) (ops : list Op) (st : Store),
      JS.includes n "://" = false ->
      d <> "" ->
      undisturbed n (addScreenshot s n d st) ops ->
      readResource ("screenshot://" +:+ n) (execAll ops (addScreenshot s n d st))
        = Ok [ {| uri := "screenshot://" +:+ n; mimeType := "image/png"; blob := d |} ])
  /\ (forall (u : string) (st : Store),
        JS.startsWith u "screenshot://" = false ->
        readResource u st = Throw ("Resource not found: " +:+ u))
  /\ (forall (n : string) (st : Store),
        JS.includes n "://" = false ->
        screenshots st !! n = None ->
        readResource ("screenshot://" +:+ n) st
          = Throw ("Resource not found: " +:+ "screenshot://" +:+ n)).
Proof.
  split; [|split].
  - intros s n d ops st Hn Hd Hops.
    rewrite readResource_screenshot_uri by done.
    rewrite (execAll_preserves n d ops _ Hops).
    + apply String.eqb_neq in Hd. by rewrite Hd.
    + unfold addScreenshot. cbn [screenshots]. apply lookup_insert_eq.
  - intros u st Hu. unfold readResource. by rewrite Hu.
  - intros n st Hn Hnone. rewrite readResource_screenshot_uri by done.
    by rewrite Hnone.
Qed.

Lemma readResource_after_addScreenshot_witness :
  readResource ("screenshot://" +:+ "shot")
    (execAll [Add "s" "other" "AAAA"; Cleanup "s0"]
       (addScreenshot "s" "shot" "iVBORw0KGgo=" emptyStore))
    = Ok [ {| uri := "screenshot://" +:+ "shot"; mimeType := "image/png";
              blob := "iVBORw0KGgo=" |} ]
  /\ readResource "file:///etc/passwd" emptyStore
     = Throw ("Resource not found: " +:+ "file:///etc/passwd")
  /\ readResource ("screenshot://" +:+ "gone") emptyStore
     = Throw ("Resource not found: " +:+ "screenshot://" +:+ "gone").
Proof.
  destruct readResource_after_addScreenshot as (H1 & H2 & H3).
  split; [|split].
  - apply H1; [reflexivity|discriminate|].
    cbn. split; [discriminate|]. split; [|exact I]. vm_compute. tauto.
  - apply H2. reflexivity.
  - apply H3; reflexivity.
Defined.

Lemma addScreenshot_tracks (s n d : string) (st : Store) :
  exists shots, sessionScreenshots (addScreenshot s n d st) !! s = Some shots /\ n ∈ shots.
Proof.
  unfold addScreenshot. cbn [sessionScreenshots].
  destruct (sessionScreenshots st !! s) as [shots|] eqn:Hs.
  - rewrite Hs. rewrite lookup_insert_eq. eexists. split; [done|]. set_solver.
  - rewrite lookup_insert_eq. rewrite lookup_insert_eq. eexists. split; [done|]. set_solver.
Qed.

Lemma addScreenshot_tracks_other (s s' n d : string) (st : Store) :
  s' <> s ->
  sessionScreenshots (addScreenshot s n d st) !! s' = sessionScreenshots st !! s'.
Proof.
  intros Hne. unfold addScreenshot. cbn [sessionScreenshots].
  destruct (sessionScreenshots st !! s) as [shots|] eqn:Hs.
  - rewrite Hs. by rewrite lookup_insert_ne.
  - rewrite lookup_insert_eq. by rewrite !lookup_insert_ne.
Qed.

(** C10.  Screenshots live in one map keyed by name.  For distinct
    sessions [s1], [s2] and a name [n]: after [addScreenshot s1 n d1] the
    name maps to [d1]; [addScreenshot s2 n d2] makes it map to [d2]; a
    following [cleanupSessionScreenshots s1] deletes the name, although
    [s2] still tracks it, and returns the number of names tracked by
    [s1] that were stored, which counts [n] and so is at least 1.  For a
    session with no tracked screenshots the cleanup returns 0 and leaves
    the store as it was. *)
Theorem screenshots_keyed_by_name_alone (s1 s2 n d1 d2 : string) (st : Store) :
  s1 <> s2 ->
  let st1 := addScreenshot s1 n d1 st in
  let st2 := addScreenshot s2 n d2 st1 in
  let r := cleanupSessionScreenshots s1 st2 in
  screenshots st1 !! n = Some d1
  /\ screenshots st2 !! n = Some d2
  /\ screenshots r.1 !! n = None
  /\ (exists shots, sessionScreenshots st2 !! s1 = Some shots /\ n ∈ shots
        /\ r.2 = length (filter (fun x => is_Some (screenshots st2 !! x)) (elements shots)))
  /\ 1 <= r.2
  /\ (exists shots2, sessionScreenshots r.1 !! s2 = Some shots2 /\ n ∈ shots2)
  /\ (forall s0 st0, sessionScreenshots st0 !! s0 = None ->
        cleanupSessionScreenshots s0 st0 = (st0, 0)).
Proof.
  intros Hne st1 st2 r.
  destruct (addScreenshot_tracks s1 n d1 st) as (shots & Hshots & Hin).
  assert (sessionScreenshots st2 !! s1 = Some shots) as Hs1.
  { unfold st2. by rewrite addScreenshot_tracks_other. }
  assert (screenshots st2 !! n = Some d2) as Hn2.
  { unfold st2, addScreenshot. cbn [screenshots]. apply lookup_insert_eq. }
  assert (r = ({| screenshots := (foldl deleteCounting (screenshots st2, 0) (elements shots)).1;
                  sessionScreenshots := delete s1 (sessionScreenshots st2) |},
               (foldl deleteCounting (screenshots st2, 0) (elements shots)).2)) as Hr.
  { unfold r, cleanupSessionScreenshots. rewrite Hs1.
    by destruct (foldl deleteCounting (screenshots st2, 0) (elements shots)). }
  assert (r.2 = length (filter (fun x => is_Some (screenshots st2 !! x)) (elements shots))) as Hcount.
  { rewrite Hr. cbn [snd]. rewrite foldl_deleteCounting_count by apply NoDup_elements. lia. }
  split; [|split; [|split; [|split; [|split; [|split]]]]].
  - unfold st1, addScreenshot. cbn [screenshots]. apply lookup_insert_eq.
  - exact Hn2.
  - rewrite Hr. cbn [fst screenshots]. rewrite foldl_deleteCounting_lookup.
    rewrite decide_True; [done|]. by apply elem_of_elements.
  - exists shots. auto.
  - rewrite Hcount.
    assert (n ∈ filter (fun x => is_Some (screenshots st2 !! x)) (elements shots)) as Hmem.
    { apply list_elem_of_filter. split; [by rewrite Hn2|]. by apply elem_of_elements. }
    destruct (filter _ _); [by apply elem_of_nil in Hmem|]. cbn. lia.
  - rewrite Hr. cbn [fst sessionScreenshots]. rewrite lookup_delete_ne by done.
    apply addScreenshot_tracks.
  - intros s0 st0 Hnone. unfold cleanupSessionScreenshots. by rewrite Hnone.
Qed.

Lemma screenshots_keyed_by_name_alone_witness :
  let st1 := addScreenshot "alice" "shot" "AAAA" emptyStore in
  let st2 := addScreenshot "bob" "shot" "BBBB" st1 in
  let r := cleanupSessionScreenshots "alice" st2 in
  screenshots st2 !! "shot" = Some "BBBB"
  /\ screenshots r.1 !! "shot" = None
  /\ 1 <= r.2.
Proof.
  pose proof (screenshots_keyed_by_name_alone "alice" "bob" "shot" "AAAA" "BBBB" emptyStore)
    as H.
  cbv zeta in H. destruct H as (_ & H2 & H3 & _ & H5 & _); [discriminate|].
  auto.
Defined.

Example cleanup_counts_one :
  (cleanupSessionScreenshots "alice"
     (addScreenshot "bob" "shot" "BBBB" (addScreenshot "alice" "shot" "AAAA" emptyStore))).2 = 1.
Proof. vm_compute. reflexivity. Qed.

(* ===================================================================== *)
(** * Further properties *)
(* ===================================================================== *)

(** ** Session store: further properties *)

Lemma createSession_shape w cfg key :
  (exists msg, createSession w cfg key = (w, Thrown msg) /\ ~ validTask (AwaitInit cfg key 0))
  \/ createSession w cfg key =
       ({| sessions := sessions w; constructed := S (constructed w);
           closeCalls := closeCalls w |}, AwaitInit cfg key (constructed w)).
Proof.
  unfold createSession, validTask.
  destruct (JS.truthy (apiKey cfg)), (JS.truthy (projectId cfg)),
    (JS.truthy (modelApiKey cfg)); cbn [negb orb]; eauto;
    left; eexists; (split; [reflexivity|]); intros (? & ? & ?); discriminate.
Qed.

(** A call that fails validation stops in its first turn, before any
    construction and without touching the store. *)
Lemma step_invalid_keys o w apiKeys msg :
  getStagehandConfig (procEnv o) apiKeys = Throw msg ->
  step o w (CallGetSession apiKeys) = (w, Thrown msg)
  /\ step o w (CallCloseSession apiKeys) = (w, Thrown msg).
Proof. intros H. cbn [step]. by rewrite H. Qed.

Lemma step_validTask o w t :
  validTask t ->
  validTask (step o w t).2.
Proof.
  intros Hv. destruct t as [a|cfg k ex|cfg k h|a|k|h| |m]; cbn [step]; try exact I.
  - destruct (getStagehandConfig (procEnv o) a) as [cfg|msg] eqn:Hcfg; [|exact I].
    cbn zeta. destruct (getStagehandConfig_Ok _ _ _ Hcfg) as (H1 & H2 & H3).
    destruct (sessions w !! getSessionKey cfg); [destruct (pageDefined o)|]; cbn [negb];
      rewrite ?createSession_valid by done; cbn; auto.
  - destruct Hv as (H1 & H2 & H3).
    destruct (settled o); [exact I|]. rewrite createSession_valid by done. cbn. auto.
  - destruct (settled o); [|exact I]. destruct (pageDefined o); exact I.
  - destruct (getStagehandConfig (procEnv o) a) as [cfg|msg]; [|exact I].
    cbn zeta. destruct (sessions w !! getSessionKey cfg); [|exact I].
    destruct (pageDefined o); exact I.
  - destruct (settled o); exact I.
Qed.

(** Where the message of a thrown task comes from, one turn at a time. *)
Lemma step_thrown o w t w' msg :
  validTask t ->
  step o w t = (w', Thrown msg) ->
  t = Thrown msg
  \/ (exists apiKeys, (t = CallGetSession apiKeys \/ t = CallCloseSession apiKeys)
        /\ getStagehandConfig (procEnv o) apiKeys = Throw msg)
  \/ (exists cfg k h, t = AwaitInit cfg k h
        /\ (settled o = Throw msg
            \/ (settled o = Ok tt /\ pageDefined o = false /\ msg = pageUndefinedMessage))).
Proof.
  intros Hv. destruct t as [a|cfg k ex|cfg k h|a|k|h| |m]; cbn [step].
  - destruct (getStagehandConfig (procEnv o) a) as [cfg|m] eqn:Hcfg.
    + cbn zeta. destruct (getStagehandConfig_Ok _ _ _ Hcfg) as (H1 & H2 & H3).
      destruct (sessions w !! getSessionKey cfg); [destruct (pageDefined o)|]; cbn [negb];
        rewrite ?createSession_valid by done; intros H; discriminate H.
    + intros H. injection H as <- <-. right. left. eauto.
  - destruct Hv as (H1 & H2 & H3).
    destruct (settled o); [intros H; discriminate H|].
    rewrite createSession_valid by done. intros H; discriminate H.
  - destruct (settled o) as [[]|m] eqn:Hs.
    + destruct (pageDefined o) eqn:Hp; cbn [negb]; intros H; [discriminate H|].
      injection H as <- <-. right. right. exists cfg, k, h. split; [done|]. right. done.
    + intros H. injection H as <- <-. right. right. exists cfg, k, h. split; [done|]. by left.
  - destruct (getStagehandConfig (procEnv o) a) as [cfg|m] eqn:Hcfg.
    + cbn zeta. destruct (sessions w !! getSessionKey cfg); [destruct (pageDefined o)|];
        intros H; discriminate H.
    + intros H. injection H as <- <-. right. left. eauto.
  - destruct (settled o); intros H; discriminate H.
  - intros H; discriminate H.
  - intros H; discriminate H.
  - intros H. injection H as <- <-. by left.
Qed.

Lemma run_task_app os1 os2 w t :
  run_task (os1 ++ os2) w t =
    run_task os2 (run_task os1 w t).1 (run_task os1 w t).2.
Proof.
  revert w t. induction os1 as [|o os1 IH]; intros w t; [done|].
  cbn [app run_task]. destruct (step o w t) as [w1 t1]. apply IH.
Qed.

Lemma run_task_thrown os w t w' msg :
  validTask t ->
  run_task os w t = (w', Thrown msg) ->
  t = Thrown msg
  \/ (exists o apiKeys, o ∈ os
        /\ (t = CallGetSession apiKeys \/ t = CallCloseSession apiKeys)
        /\ getStagehandConfig (procEnv o) apiKeys = Throw msg)
  \/ (exists o, o ∈ os /\ settled o = Throw msg)
  \/ msg = pageUndefinedMessage.
Proof.
  revert w t. induction os as [|o os IH]; intros w t Hv H.
  - cbn in H. injection H as <- ->. by left.
  - cbn [run_task] in H. destruct (step o w t) as [w1 t1] eqn:Hstep.
    pose proof (step_validTask o w t Hv) as Hv1. rewrite Hstep in Hv1. cbn in Hv1.
    destruct (IH _ _ Hv1 H) as [-> | [(o' & a & Hin & Ht1 & Hcfg) | [(o' & Hin & Hs) | ->]]].
    + destruct (step_thrown _ _ _ _ _ Hv Hstep)
        as [-> | [(a & Ht & Hcfg) | (cfg & k & h & -> & [Hs | (_ & _ & ->)])]].
      * by left.
      * right. left. exists o, a. split; [apply elem_of_cons; by left|]. done.
      * right. right. left. exists o. split; [apply elem_of_cons; by left|]. done.
      * right. right. by right.
    + (* a task never turns into a fresh call *)
      exfalso. destruct t as [a0|cfg k ex|cfg k h|a0|k|h| |m]; cbn [step] in Hstep.
      * destruct (getStagehandConfig (procEnv o) a0) as [cfg|m] eqn:Hc; cbn zeta in Hstep.
        -- destruct (getStagehandConfig_Ok _ _ _ Hc) as (H1 & H2 & H3).
           destruct (sessions w !! getSessionKey cfg); [destruct (pageDefined o)|];
             cbn [negb] in Hstep; rewrite ?createSession_valid in Hstep by done;
             injection Hstep as <- <-; destruct Ht1; discriminate.
        -- injection Hstep as <- <-; destruct Ht1; discriminate.
      * destruct Hv as (H1 & H2 & H3). destruct (settled o);
          rewrite ?createSession_valid in Hstep by done;
          injection Hstep as <- <-; destruct Ht1; discriminate.
      * destruct (settled o); [destruct (pageDefined o)|]; cbn [negb] in Hstep;
          injection Hstep as <- <-; destruct Ht1; discriminate.
      * destruct (getStagehandConfig (procEnv o) a0) as [cfg|m] eqn:Hc; cbn zeta in Hstep.
        -- destruct (sessions w !! getSessionKey cfg); [destruct (pageDefined o)|];
             cbn [negb] in Hstep; injection Hstep as <- <-; destruct Ht1; discriminate.
        -- injection Hstep as <- <-; destruct Ht1; discriminate.
      * destruct (settled o); injection Hstep as <- <-; destruct Ht1; discriminate.
      * injection Hstep as <- <-; destruct Ht1; discriminate.
      * injection Hstep as <- <-; destruct Ht1; discriminate.
      * injection Hstep as <- <-; destruct Ht1; discriminate.
    + right. right. left. exists o'. split; [apply elem_of_cons; by right|]. done.
    + right. right. by right.
Qed.

(** X1. A getSession call that ends by throwing throws one of three
    things: the message of getStagehandConfig's key validation, the
    message a promise it awaited was rejected with, or 'Stagehand
    initialization completed but page object is undefined'. Its own
    second check ('Missing required configuration: ...') never fires,
    because a configuration that passed getStagehandConfig always passes
    it. *)
Theorem getSession_thrown_messages (os : list Obs) (w w' : World)
    (apiKeys : option ApiKeys) (msg : string) :
  run_task os w (CallGetSession apiKeys) = (w', Thrown msg) ->
  (exists o, o ∈ os /\ getStagehandConfig (procEnv o) apiKeys = Throw msg)
  \/ (exists o, o ∈ os /\ settled o = Throw msg)
  \/ msg = pageUndefinedMessage.
Proof.
  intros H. destruct (run_task_thrown os w (CallGetSession apiKeys) w' msg I H)
    as [Hc | [(o & a & Hin & Ht & Hcfg) | [Hs | Hp]]].
  - discriminate Hc.
  - left. exists o. split; [done|]. destruct Ht as [Ht|Ht]; [|discriminate Ht].
    by injection Ht as ->.
  - right. by left.
  - right. by right.
Qed.


Lemma getSession_thrown_messages_witness :
  (exists o, o ∈ [fine noEnv 1; failing noEnv 2 "net::ERR_CONNECTION_RESET"]
        /\ getStagehandConfig (procEnv o) someKeys = Throw "net::ERR_CONNECTION_RESET")
  \/ (exists o, o ∈ [fine noEnv 1; failing noEnv 2 "net::ERR_CONNECTION_RESET"]
        /\ settled o = Throw "net::ERR_CONNECTION_RESET")
  \/ "net::ERR_CONNECTION_RESET" = pageUndefinedMessage.
Proof.
  apply (getSession_thrown_messages
           [fine noEnv 1; failing noEnv 2 "net::ERR_CONNECTION_RESET"]
           emptyWorld
           {| sessions := ∅; constructed := 1; closeCalls := [] |}
           someKeys "net::ERR_CONNECTION_RESET").
  reflexivity.
Defined.

(** X2. When no record exists for the key and stagehand.init() rejects
    with a message, getSession throws that message and installs no
    record (the store is as before, one instance was constructed); the
    next getSession with the same keys constructs a further, new
    instance and installs it. *)
Theorem getSession_construction_failure_then_retry (w : World) (e : ProcessEnv)
    (apiKeys : option ApiKeys) (cfg : ConstructorParams) (msg : string)
    (t1 t2 t3 t4 : Z) :
  getStagehandConfig e apiKeys = Ok cfg ->
  sessions w !! getSessionKey cfg = None ->
  let r1 := run_task [fine e t1; failing e t2 msg] w (CallGetSession apiKeys) in
  let r2 := run_task [fine e t3; fine e t4] r1.1 (CallGetSession apiKeys) in
  r1.2 = Thrown msg
  /\ sessions r1.1 = sessions w
  /\ constructed r1.1 = S (constructed w)
  /\ r2.2 = Returned (S (constructed w))
  /\ constructed r2.1 = S (S (constructed w))
  /\ sessions r2.1 !! getSessionKey cfg
     = Some {| stagehand := S (constructed w); config := cfg; lastUsed := t4 |}.
Proof.
  intros Hcfg Hnone r1 r2.
  assert (r1 = ({| sessions := sessions w; constructed := S (constructed w);
                   closeCalls := closeCalls w |}, Thrown msg)) as Hr1.
  { unfold r1. cbn [run_task]. rewrite (step_getSession_absent _ _ _ cfg) by done.
    by rewrite (step_init_rejected _ _ _ _ _ msg). }
  assert (r2 = ({| sessions := <[getSessionKey cfg :=
                                   {| stagehand := S (constructed w); config := cfg;
                                      lastUsed := t4 |}]> (sessions w);
                   constructed := S (S (constructed w));
                   closeCalls := closeCalls w |}, Returned (S (constructed w)))) as Hr2.
  { unfold r2. rewrite Hr1. cbn [fst run_task].
    rewrite (step_getSession_absent _ _ _ cfg) by done.
    by rewrite step_init_resolved. }
  rewrite Hr1, Hr2. cbn [fst snd sessions constructed].
  repeat split. apply lookup_insert_eq.
Qed.

Lemma getSession_construction_failure_then_retry_witness :
  let r1 := run_task [fine noEnv 1; failing noEnv 2 "quota exceeded"] emptyWorld
              (CallGetSession someKeys) in
  let r2 := run_task [fine noEnv 3; fine noEnv 4] r1.1 (CallGetSession someKeys) in
  r1.2 = Thrown "quota exceeded" /\ sessions r1.1 = sessions emptyWorld
  /\ r2.2 = Returned 1.
Proof.
  pose proof (getSession_construction_failure_then_retry emptyWorld noEnv someKeys
                someConfig "quota exceeded" 1 2 3 4) as H.
  cbv zeta in H. destruct H as (H1 & H2 & _ & H4 & _); [reflexivity | reflexivity |].
  split; [exact H1|]. split; [exact H2 | exact H4].
Defined.

(** X3. When a record exists for the key and the probe succeeds,
    getSession returns the record's instance, constructs nothing, closes
    nothing, sets the record's lastUsed to the current time leaving its
    instance and config as they were, and leaves every other record
    untouched. *)
Theorem getSession_warm_reuse (w : World) (o1 o2 : Obs)
    (apiKeys : option ApiKeys) (cfg : ConstructorParams)
    (existing : StagehandSession) :
  getStagehandConfig (procEnv o1) apiKeys = Ok cfg ->
  sessions w !! getSessionKey cfg = Some existing ->
  pageDefined o1 = true ->
  settled o2 = Ok tt ->
  let r := run_task [o1; o2] w (CallGetSession apiKeys) in
  r.2 = Returned (stagehand existing)
  /\ constructed r.1 = constructed w
  /\ closeCalls r.1 = closeCalls w
  /\ sessions r.1 !! getSessionKey cfg
     = Some {| stagehand := stagehand existing; config := config existing;
               lastUsed := now o2 |}
  /\ forall k, k <> getSessionKey cfg -> sessions r.1 !! k = sessions w !! k.
Proof.
  intros Hcfg Hsome Hpage Hok r. unfold r. cbn [run_task].
  rewrite (step_getSession_present _ _ _ cfg existing) by done.
  rewrite step_evaluate_resolved by done.
  cbn [fst snd setSessions sessions constructed closeCalls].
  unfold touch. rewrite Hsome, Nat.eqb_refl.
  repeat split.
  - apply lookup_insert_eq.
  - intros k Hk. by apply lookup_insert_ne.
Qed.

Lemma getSession_warm_reuse_witness :
  let r := run_task [fine noEnv 20; fine noEnv 21] warmWorld (CallGetSession someKeys) in
  r.2 = Returned 0 /\ constructed r.1 = 1
  /\ sessions r.1 !! getSessionKey someConfig
     = Some {| stagehand := 0; config := someConfig; lastUsed := 21 |}.
Proof.
  pose proof (getSession_warm_reuse warmWorld (fine noEnv 20) (fine noEnv 21)
                someKeys someConfig warmRecord) as H.
  cbv zeta in H. destruct H as (H1 & H2 & _ & H4 & _); try reflexivity.
  split; [exact H1|]. split; [exact H2 | exact H4].
Defined.



(** ** Invariants under interleaving *)

Lemma touch_lookup (m : gmap string StagehandSession) key ex t k r' :
  touch m key ex t !! k = Some r' ->
  exists r, m !! k = Some r /\ stagehand r = stagehand r'.
Proof.
  unfold touch. destruct (m !! key) as [r0|] eqn:Hkey; [|eauto].
  destruct (Nat.eqb (stagehand r0) (stagehand ex)); [|eauto].
  destruct (decide (k = key)) as [->|Hne].
  - rewrite lookup_insert_eq. intros H. injection H as <-. eauto.
  - rewrite lookup_insert_ne by done. eauto.
Qed.

Lemma touch_lookup_ne (m : gmap string StagehandSession) key ex t k :
  k <> key -> touch m key ex t !! k = m !! k.
Proof.
  intros Hne. unfold touch. destruct (m !! key) as [r0|]; [|done].
  destruct (Nat.eqb (stagehand r0) (stagehand ex)); [|done].
  by rewrite lookup_insert_ne.
Qed.

Lemma createSession_effect (o : Obs) (w v : World) (t : Task) cfg key :
  constructed v = constructed w ->
  pending t = None ->
  (forall k r, sessions v !! k = Some r -> sessions w !! k = Some r) ->
  turnEffect o w t (createSession v cfg key).1 (createSession v cfg key).2.
Proof.
  intros Hc Hp Hsub.
  destruct (createSession_shape v cfg key) as [(msg & -> & _) | ->]; cbn [fst snd].
  - repeat split.
    + lia.
    + intros k r' Hk. left. eauto.
    + discriminate.
    + discriminate.
    + discriminate.
    + discriminate.
  - unfold turnEffect. cbn [sessions constructed pending held].
    split; [lia|]. split; [|split].
    + intros k r' Hk. left. eauto.
    + intros h [= <-]. rewrite Hc. auto.
    + intros h [= <-]. right. right. rewrite Hc. auto.
Qed.

Lemma step_effect (o : Obs) (w : World) (t : Task) :
  turnEffect o w t (step o w t).1 (step o w t).2.
Proof.
  assert (forall v key, sessions v = delete key (sessions w) ->
            forall k r, sessions v !! k = Some r -> sessions w !! k = Some r) as Hdel.
  { intros v key -> k r Hk. by apply lookup_delete_Some in Hk as [_ Hk]. }
  assert (forall t', pending t' = None ->
            (forall h, held t' = Some h ->
               held t = Some h \/ (exists k r, sessions w !! k = Some r /\ stagehand r = h)) ->
            turnEffect o w t w t') as Hsame.
  { intros t' Hp Hh. split; [lia|]. split; [|split].
    - intros k r' Hk. left. eauto.
    - intros h Hh'. congruence.
    - intros h Hh'. destruct (Hh h Hh'); auto. }
  destruct t as [a|cfg key ex|cfg key h0|a|key|h0| |m]; cbn [step].
  - destruct (getStagehandConfig (procEnv o) a) as [cfg|msg]; cbn zeta.
    + destruct (sessions w !! getSessionKey cfg) as [ex|] eqn:Hex.
      * destruct (pageDefined o); cbn [negb].
        -- apply Hsame; [done|]. intros h [= <-]. right. eauto.
        -- apply createSession_effect; [done..|]. by apply (Hdel _ (getSessionKey cfg)).
      * apply createSession_effect; auto.
    + apply Hsame; [done|discriminate].
  - destruct (settled o).
    + cbn [fst snd]. split; [cbn; lia|]. split; [|split].
      * intros k r' Hk. cbn in Hk. left. by apply touch_lookup in Hk.
      * discriminate.
      * intros h [= <-]. by left.
    + apply createSession_effect; [done..|]. by apply (Hdel _ key).
  - destruct (settled o).
    + destruct (pageDefined o); cbn [negb].
      * cbn [fst snd]. split; [cbn; lia|]. split; [|split].
        -- intros k r' Hk. cbn in Hk.
           apply lookup_insert_Some in Hk as [[<- <-] | [_ Hk]]; [by right|left; eauto].
        -- discriminate.
        -- intros h [= <-]. by left.
      * cbn [fst snd]. split; [lia|]. split; [|split].
        -- intros k r' Hk. left; eauto.
        -- discriminate.
        -- discriminate.
    + cbn [fst snd]. split; [lia|]. split; [|split].
      * intros k r' Hk. left; eauto.
      * discriminate.
      * discriminate.
  - destruct (getStagehandConfig (procEnv o) a) as [cfg|msg]; cbn zeta.
    + destruct (sessions w !! getSessionKey cfg) as [ex|] eqn:Hex.
      * destruct (pageDefined o); cbn [negb fst snd].
        -- split; [cbn; lia|]. split; [|split]; [|discriminate..].
           intros k r' Hk. left; eauto.
        -- split; [cbn; lia|]. split; [|split]; [|discriminate..].
           intros k r' Hk. cbn in Hk. apply lookup_delete_Some in Hk as [_ Hk]. left; eauto.
      * apply Hsame; [done|discriminate].
    + apply Hsame; [done|discriminate].
  - assert (turnEffect o w (AwaitClose key)
              (setSessions w (delete key (sessions w))) ReturnedVoid) as H.
    { split; [cbn; lia|]. split; [|split]; [|discriminate..].
      intros k r' Hk. cbn in Hk. apply lookup_delete_Some in Hk as [_ Hk]. left; eauto. }
    by destruct (settled o).
  - apply Hsame; [done|]. intros h [= <-]. by left.
  - apply Hsame; [done|discriminate].
  - apply Hsame; [done|discriminate].
Qed.

Lemma held_pending (t : Task) (h : nat) : pending t = Some h -> held t = Some h.
Proof. destruct t; cbn; congruence. Qed.

Lemma wellFormed_step_at (i : nat) (o : Obs) (w : World) (ts : list Task) :
  wellFormed w ts ->
  wellFormed (step_at i o (w, ts)).1 (step_at i o (w, ts)).2.
Proof.
  intros [Hsi Hhi Hsd Hpf Hpd]. unfold step_at. cbn [fst snd].
  destruct (ts !! i) as [t|] eqn:Hi; [|by constructor].
  pose proof (step_effect o w t) as (Hm & He & Hp & Hh).
  destruct (step o w t) as [w' t']. cbn [fst snd] in *.
  assert (forall j tj, <[i:=t']> ts !! j = Some tj ->
            (j = i /\ tj = t') \/ (j <> i /\ ts !! j = Some tj)) as Hlk.
  { intros j tj Hj. apply list_lookup_insert_Some in Hj as [(-> & -> & _) | [? ?]]; auto. }
  constructor.
  - intros k r' Hk. destruct (He k r' Hk) as [(r & Hr & <-) | [Hpt _]].
    + specialize (Hsi k r Hr). lia.
    + apply held_pending in Hpt. specialize (Hhi i t _ Hi Hpt). lia.
  - intros j tj h Hj Hheld. destruct (Hlk j tj Hj) as [[-> ->] | [Hne Hold]].
    + destruct (Hh h Hheld) as [Hold | [(k & r & Hr & <-) | [-> ->]]].
      * specialize (Hhi i t h Hi Hold). lia.
      * specialize (Hsi k r Hr). lia.
      * lia.
    + specialize (Hhi j tj h Hold Hheld). lia.
  - intros k1 k2 r1 r2 H1 H2 Heq.
    destruct (He k1 r1 H1) as [(q1 & Hq1 & E1) | [P1 K1]],
             (He k2 r2 H2) as [(q2 & Hq2 & E2) | [P2 K2]].
    + apply (Hsd k1 k2 q1 q2); congruence.
    + exfalso. apply (Hpf i t (stagehand r2) k1 q1 Hi P2 Hq1). congruence.
    + exfalso. apply (Hpf i t (stagehand r1) k2 q2 Hi P1 Hq2). congruence.
    + congruence.
  - intros j tj h k r' Hj Hpend Hk.
    destruct (Hlk j tj Hj) as [[-> ->] | [Hne Hold]].
    + destruct (Hp h Hpend) as (-> & _ & Hnone).
      destruct (He k r' Hk) as [(r & Hr & <-) | [P _]]; [|congruence].
      specialize (Hsi k r Hr). lia.
    + destruct (He k r' Hk) as [(r & Hr & <-) | [P _]].
      * by apply (Hpf j tj h k r).
      * intros <-. apply Hne. by apply (Hpd j i tj t (stagehand r')).
  - intros j1 j2 t1 t2 h H1 H2 P1 P2.
    destruct (Hlk j1 t1 H1) as [[-> ->] | [Hne1 Hold1]],
             (Hlk j2 t2 H2) as [[-> ->] | [Hne2 Hold2]].
    + done.
    + destruct (Hp h P1) as (-> & _ & _).
      apply held_pending in P2. specialize (Hhi j2 t2 _ Hold2 P2). lia.
    + destruct (Hp h P2) as (-> & _ & _).
      apply held_pending in P1. specialize (Hhi j1 t1 _ Hold1 P1). lia.
    + by apply (Hpd j1 j2 t1 t2 h).
Qed.

Lemma wellFormed_run_pool (schedule : list (nat * Obs)) (w : World) (ts : list Task) :
  wellFormed w ts ->
  wellFormed (run_pool schedule (w, ts)).1 (run_pool schedule (w, ts)).2.
Proof.
  revert w ts. induction schedule as [|[i o] schedule IH]; intros w ts Hwf; [done|].
  unfold run_pool. cbn [foldl fst snd].
  pose proof (wellFormed_step_at i o w ts Hwf) as H.
  destruct (step_at i o (w, ts)) as [w1 ts1]. by apply IH.
Qed.

Lemma wellFormed_fresh (w : World) (ts : list Task) :
  (forall k r, sessions w !! k = Some r -> stagehand r < constructed w) ->
  (forall k1 k2 r1 r2,
      sessions w !! k1 = Some r1 -> sessions w !! k2 = Some r2 ->
      stagehand r1 = stagehand r2 -> k1 = k2) ->
  Forall freshCall ts ->
  wellFormed w ts.
Proof.
  intros H1 H2 Hf.
  assert (forall i t, ts !! i = Some t -> held t = None /\ pending t = None) as Hn.
  { intros i t Hi. rewrite Forall_lookup in Hf. specialize (Hf i t Hi).
    destruct t; cbn in Hf; try done. }
  constructor; [done| |done| |].
  - intros i t h Hi Hh. destruct (Hn i t Hi). congruence.
  - intros i t h k r Hi Hp. destruct (Hn i t Hi). congruence.
  - intros i j ti tj h Hi Hj Hp. destruct (Hn i ti Hi). congruence.
Qed.

(** X6. In every interleaving of getSession and closeSession calls
    started on a store whose instances were all constructed by the
    manager and in which no instance is installed under two keys, every
    instance a call returns is one the manager constructed (its rank is
    below the construction counter). *)
Theorem run_pool_returns_issued (schedule : list (nat * Obs)) (w : World)
    (ts : list Task) (i h : nat) :
  (forall k r, sessions w !! k = Some r -> stagehand r < constructed w) ->
  (forall k1 k2 r1 r2,
      sessions w !! k1 = Some r1 -> sessions w !! k2 = Some r2 ->
      stagehand r1 = stagehand r2 -> k1 = k2) ->
  Forall freshCall ts ->
  (run_pool schedule (w, ts)).2 !! i = Some (Returned h) ->
  h < constructed (run_pool schedule (w, ts)).1.
Proof.
  intros H1 H2 Hf Hi.
  pose proof (wellFormed_run_pool schedule w ts (wellFormed_fresh w ts H1 H2 Hf)) as Hwf.
  by apply (held_issued _ _ Hwf i (Returned h) h).
Qed.


Lemma emptyWorld_issued :
  forall k r, sessions emptyWorld !! k = Some r -> stagehand r < constructed emptyWorld.
Proof. intros k r H. cbn in H. by rewrite lookup_empty in H. Qed.

Lemma emptyWorld_distinct :
  forall k1 k2 r1 r2,
    sessions emptyWorld !! k1 = Some r1 -> sessions emptyWorld !! k2 = Some r2 ->
    stagehand r1 = stagehand r2 -> k1 = k2.
Proof. intros k1 k2 r1 r2 H. cbn in H. by rewrite lookup_empty in H. Qed.

Lemma racingCalls_fresh : Forall freshCall racingCalls.
Proof. repeat constructor. Qed.

Lemma run_pool_returns_issued_witness :
  1 < constructed (run_pool racingSchedule (emptyWorld, racingCalls)).1.
Proof.
  apply (run_pool_returns_issued racingSchedule emptyWorld racingCalls 1 1
           emptyWorld_issued emptyWorld_distinct racingCalls_fresh).
  reflexivity.
Defined.



Lemma createSession_frame w cfg key :
  sessions (createSession w cfg key).1 = sessions w
  /\ worksOn key (createSession w cfg key).2.
Proof.
  destruct (createSession_shape w cfg key) as [(msg & -> & _) | ->]; by cbn.
Qed.

Lemma step_frame (o : Obs) (w : World) (t : Task) (key k : string) :
  (worksOn key t \/ exists cfg apiKeys,
      (t = CallGetSession apiKeys \/ t = CallCloseSession apiKeys)
      /\ getStagehandConfig (procEnv o) apiKeys = Ok cfg /\ key = getSessionKey cfg) ->
  k <> key ->
  sessions (step o w t).1 !! k = sessions w !! k /\ worksOn key (step o w t).2.
Proof.
  intros Ht Hne.
  destruct t as [a|cfg key' ex|cfg key' h0|a|key'|h0| |m]; cbn [step].
  - destruct Ht as [[] | (cfg & a' & [[= <-] | [=]] & Hcfg & ->)].
    rewrite Hcfg. cbn zeta.
    destruct (sessions w !! getSessionKey cfg); [destruct (pageDefined o)|]; cbn [negb].
    + by cbn.
    + destruct (createSession_frame (setSessions w (delete (getSessionKey cfg) (sessions w)))
                  cfg (getSessionKey cfg)) as [-> ?].
      split; [|done]. cbn. by rewrite lookup_delete_ne.
    + by destruct (createSession_frame w cfg (getSessionKey cfg)) as [-> ?].
  - destruct Ht as [<- | (cfg' & a' & [[=] | [=]] & _)].
    destruct (settled o).
    + cbn. split; [|done]. by apply touch_lookup_ne.
    + destruct (createSession_frame (setSessions w (delete key' (sessions w))) cfg key')
        as [-> ?].
      split; [|done]. cbn. by rewrite lookup_delete_ne.
  - destruct Ht as [<- | (cfg' & a' & [[=] | [=]] & _)].
    destruct (settled o); [destruct (pageDefined o)|]; cbn; split; try done.
    by rewrite lookup_insert_ne.
  - destruct Ht as [[] | (cfg & a' & [[=] | [= <-]] & Hcfg & ->)].
    rewrite Hcfg. cbn zeta.
    destruct (sessions w !! getSessionKey cfg); [destruct (pageDefined o)|]; cbn;
      split; try done.
    by rewrite lookup_delete_ne.
  - destruct Ht as [<- | (cfg' & a' & [[=] | [=]] & _)].
    destruct (settled o); cbn; split; try done; by rewrite lookup_delete_ne.
  - by cbn.
  - by cbn.
  - by cbn.
Qed.

Lemma run_task_frame (os : list Obs) (w : World) (t : Task) (key k : string) :
  worksOn key t -> k <> key ->
  sessions (run_task os w t).1 !! k = sessions w !! k.
Proof.
  revert w t. induction os as [|o os IH]; intros w t Ht Hne; [done|].
  cbn [run_task].
  destruct (step_frame o w t key k (or_introl Ht) Hne) as [Hs Hw].
  destruct (step o w t) as [w1 t1]. cbn [fst snd] in *.
  rewrite IH by done. exact Hs.
Qed.

(** X5. A getSession or closeSession call, run for any number of turns
    and with any outcomes of what it awaits, never changes the record
    stored under a key other than the key of its own configuration. *)
Theorem calls_leave_other_keys (o : Obs) (os : list Obs) (w : World)
    (apiKeys : option ApiKeys) (cfg : ConstructorParams) (k : string) :
  getStagehandConfig (procEnv o) apiKeys = Ok cfg ->
  k <> getSessionKey cfg ->
  sessions (run_task (o :: os) w (CallGetSession apiKeys)).1 !! k = sessions w !! k
  /\ sessions (run_task (o :: os) w (CallCloseSession apiKeys)).1 !! k = sessions w !! k.
Proof.
  intros Hcfg Hne. cbn [run_task]. split.
  - destruct (step_frame o w (CallGetSession apiKeys) (getSessionKey cfg) k) as [Hs Hw];
      [right; eauto 10|done|].
    destruct (step o w (CallGetSession apiKeys)) as [w1 t1]. cbn [fst snd] in *.
    rewrite (run_task_frame os w1 t1 (getSessionKey cfg) k) by done. exact Hs.
  - destruct (step_frame o w (CallCloseSession apiKeys) (getSessionKey cfg) k) as [Hs Hw];
      [right; eauto 10|done|].
    destruct (step o w (CallCloseSession apiKeys)) as [w1 t1]. cbn [fst snd] in *.
    rewrite (run_task_frame os w1 t1 (getSessionKey cfg) k) by done. exact Hs.
Qed.

Lemma calls_leave_other_keys_witness :
  sessions (run_task [fine noEnv 20; failing noEnv 21 "Target closed"; fine noEnv 22]
              coldWorld (CallGetSession someKeys)).1 !! "b"
  = sessions coldWorld !! "b".
Proof.
  apply (calls_leave_other_keys (fine noEnv 20)
           [failing noEnv 21 "Target closed"; fine noEnv 22] coldWorld someKeys
           someConfig "b").
  - reflexivity.
  - vm_compute. discriminate.
Defined.

(** ** Sweep and shutdown: further properties *)

(** Where no record is stale the sweep collects nothing. *)
Lemma filter_none_stale (t : Z) (P : string * StagehandSession -> Prop)
    `{forall kv, Decision (P kv)} (m : gmap string StagehandSession) :
  (forall k r, m !! k = Some r -> ~ isStale t (k, r)) ->
  filter (fun kv => isStale t kv /\ P kv) (map_to_list m) = [].
Proof.
  intros Hm. remember (filter (fun kv => isStale t kv /\ P kv) (map_to_list m)) as l eqn:Hl.
  destruct l as [|[k r] l]; [done|]. exfalso.
  assert ((k, r) ∈ filter (fun kv => isStale t kv /\ P kv) (map_to_list m)) as Hin
    by (rewrite <- Hl; apply elem_of_cons; by left).
  apply list_elem_of_filter in Hin as [[Hst _] Hin].
  apply elem_of_map_to_list in Hin. by apply (Hm k r).
Qed.

(** A sweep that finds nothing idle changes nothing and closes nothing. *)
Lemma cleanupStaleSessions_nothing_stale (t : Z) (page : nat -> bool)
    (closeResult : nat -> Result unit) (w : World) :
  (forall k r, sessions w !! k = Some r -> (t - lastUsed r <= sessionTimeout)%Z) ->
  cleanupStaleSessions t page closeResult w = (w, SweepReturned).
Proof.
  intros H. rewrite cleanupStaleSessions_eq.
  rewrite (filter_none_stale t (fun kv => page (stagehand kv.2) = true)).
  2:{ intros k r Hk. unfold isStale. cbn. specialize (H k r Hk). lia. }
  cbn. f_equal. destruct w as [m c cl]. cbn in *. f_equal.
  apply map_filter_id. intros k r Hk. cbn. specialize (H k r Hk).
  unfold isStale. cbn. lia.
Qed.

(** X9. Sweeps compose: a sweep at time t followed by a sweep at a later
    time t' leaves the same records, and has invoked page.close() on the
    same instances, as a single sweep at t'; and a second sweep at the
    same time t changes nothing and closes nothing. (Each sweep runs
    with no other call resumed while it waits on a close.) *)
Theorem cleanupStaleSessions_twice (t t' : Z) (page : nat -> bool)
    (closeResult closeResult' : nat -> Result unit) (w : World) :
  (t <= t')%Z ->
  let w1 := (cleanupStaleSessions t page closeResult w).1 in
  sessions (cleanupStaleSessions t' page closeResult' w1).1
    = sessions (cleanupStaleSessions t' page closeResult' w).1
  /\ cleanupStaleSessions t page closeResult' w1 = (w1, SweepReturned)
  /\ (forall h, h ∈ closeCalls (cleanupStaleSessions t' page closeResult' w1).1 <->
        h ∈ closeCalls (cleanupStaleSessions t' page closeResult' w).1).
Proof.
  intros Hle w1.
  assert (forall k r, sessions w1 !! k = Some r <->
            sessions w !! k = Some r /\ ~ isStale t (k, r)) as Hw1.
  { intros k r. unfold w1. rewrite cleanupStaleSessions_eq. cbn [fst sessions].
    rewrite map_lookup_filter_Some. tauto. }
  assert (closeCalls w1 =
            (reverse ((fun kv => stagehand kv.2)
                        <$> filter (fun kv => isStale t kv /\ page (stagehand kv.2) = true)
                              (map_to_list (sessions w)))
               ++ closeCalls w)%list) as Hc1.
  { unfold w1. by rewrite cleanupStaleSessions_eq. }
  split; [|split].
  - rewrite !cleanupStaleSessions_eq. cbn [fst sessions]. apply map_eq. intros k.
    apply option_eq. intros r. rewrite !map_lookup_filter_Some, Hw1.
    unfold isStale. cbn. split; [tauto|]. intros [Hk Hn]. repeat split; auto; lia.
  - apply cleanupStaleSessions_nothing_stale. intros k r Hk.
    apply Hw1 in Hk as [_ Hn]. unfold isStale in Hn. cbn in Hn. lia.
  - intros h. rewrite !cleanupStaleSessions_eq. cbn [fst closeCalls]. rewrite Hc1.
    rewrite !elem_of_app, !elem_of_reverse, !list_elem_of_fmap.
    split.
    + intros [([k r] & -> & Hin) | [([k r] & -> & Hin) | Hold]].
      * apply list_elem_of_filter in Hin as [[Hst Hp] Hin].
        apply elem_of_map_to_list, Hw1 in Hin as [Hin _].
        left. exists (k, r). split; [done|]. apply list_elem_of_filter.
        split; [done|]. by apply elem_of_map_to_list.
      * apply list_elem_of_filter in Hin as [[Hst Hp] Hin].
        left. exists (k, r). split; [done|]. apply list_elem_of_filter.
        split; [|done]. split; [|done]. unfold isStale in *. cbn in *. lia.
      * by right.
    + intros [([k r] & -> & Hin) | Hold]; [|by right; right].
      apply list_elem_of_filter in Hin as [[Hst Hp] Hin].
      destruct (decide (isStale t (k, r))) as [Hs|Hs].
      * right. left. exists (k, r). split; [done|]. by apply list_elem_of_filter.
      * left. exists (k, r). split; [done|]. apply list_elem_of_filter.
        split; [done|]. apply elem_of_map_to_list, Hw1.
        split; [|done]. by apply elem_of_map_to_list in Hin.
Qed.

Lemma cleanupStaleSessions_twice_witness :
  let w1 := (cleanupStaleSessions 300011 (fun _ => true) (fun _ => Ok tt) coldWorld).1 in
  sessions (cleanupStaleSessions 300012 (fun _ => true) (fun _ => Ok tt) w1).1
    = sessions (cleanupStaleSessions 300012 (fun _ => true) (fun _ => Ok tt) coldWorld).1
  /\ cleanupStaleSessions 300011 (fun _ => true) (fun _ => Ok tt) w1 = (w1, SweepReturned).
Proof.
  pose proof (cleanupStaleSessions_twice 300011 300012 (fun _ => true)
                (fun _ => Ok tt) (fun _ => Ok tt) coldWorld) as H.
  cbv zeta in H. destruct H as (H1 & H2 & _); [lia|].
  split; [exact H1 | exact H2].
Defined.

(** X10. A record that a successful getSession has reused at time t0 is
    kept, with lastUsed = t0, by a sweep that is called afterwards, at a
    time t with t0 <= t and t - t0 <= 300000 ms, and runs with no other
    call resumed while it waits on a close. *)
Theorem used_record_survives_sweep (w : World) (o1 o2 : Obs)
    (apiKeys : option ApiKeys) (cfg : ConstructorParams)
    (existing : StagehandSession) (t : Z) (page : nat -> bool)
    (closeResult : nat -> Result unit) :
  getStagehandConfig (procEnv o1) apiKeys = Ok cfg ->
  sessions w !! getSessionKey cfg = Some existing ->
  pageDefined o1 = true ->
  settled o2 = Ok tt ->
  (now o2 <= t)%Z ->
  (t - now o2 <= sessionTimeout)%Z ->
  let w1 := (run_task [o1; o2] w (CallGetSession apiKeys)).1 in
  sessions (cleanupStaleSessions t page closeResult w1).1 !! getSessionKey cfg
  = Some {| stagehand := stagehand existing; config := config existing;
            lastUsed := now o2 |}.
Proof.
  intros Hcfg Hsome Hpage Hok Hafter Ht w1.
  assert (sessions w1 !! getSessionKey cfg
          = Some {| stagehand := stagehand existing; config := config existing;
                    lastUsed := now o2 |}) as Hw1.
  { unfold w1. cbn [run_task].
    rewrite (step_getSession_present _ _ _ cfg existing) by done.
    rewrite step_evaluate_resolved by done.
    cbn [fst setSessions sessions]. unfold touch. rewrite Hsome, Nat.eqb_refl.
    apply lookup_insert_eq. }
  rewrite cleanupStaleSessions_eq. cbn [fst sessions].
  apply map_lookup_filter_Some. split; [exact Hw1|].
  unfold isStale. cbn. lia.
Qed.

Lemma used_record_survives_sweep_witness :
  let w1 := (run_task [fine noEnv 20; fine noEnv 21] warmWorld (CallGetSession someKeys)).1 in
  sessions (cleanupStaleSessions 300021 (fun _ => true) (fun _ => Ok tt) w1).1
    !! getSessionKey someConfig
  = Some {| stagehand := 0; config := someConfig; lastUsed := 21 |}.
Proof.
  apply (used_record_survives_sweep warmWorld (fine noEnv 20) (fine noEnv 21) someKeys
           someConfig warmRecord 300021 (fun _ => true) (fun _ => Ok tt));
    try reflexivity; cbn; lia.
Defined.

Lemma closeAllAlone_returned (fuel : nat) page closeResult (w : World) :
  closeAllAlone fuel page closeResult w CloseAllReturned = (w, CloseAllReturned).
Proof. induction fuel as [|fuel IH]; [done|]. cbn. apply IH. Qed.

(** [closeAllSessions] running alone from the iterator's position
    [entries]: every record that has a page is closed. *)
Lemma closeAllAlone_from (page : nat -> bool) (closeResult : nat -> Result unit)
    (m : gmap string StagehandSession) (entries : list (string * StagehandSession)) :
  (forall k r, (k, r) ∈ entries -> m !! k = Some r) ->
  forall (fuel : nat) (w : World),
    sessions w = m ->
    length entries <= fuel ->
    closeAllAlone fuel page closeResult
      (closeAllFrom page w entries.*1).1 (closeAllFrom page w entries.*1).2
    = ({| sessions := ∅;
          constructed := constructed w;
          closeCalls :=
            (reverse ((fun kv => stagehand kv.2)
                        <$> filter (fun kv => page (stagehand kv.2) = true) entries)
               ++ closeCalls w)%list |},
       CloseAllReturned).
Proof.
  induction entries as [|[key session] rest IH]; intros Hm fuel w Hw Hfuel.
  - cbn. by rewrite closeAllAlone_returned.
  - assert (forall k r, (k, r) ∈ rest -> m !! k = Some r) as Hrest.
    { intros k r Hin. apply Hm. apply elem_of_cons. by right. }
    assert (sessions w !! key = Some session) as Hkey.
    { rewrite Hw. apply Hm. apply elem_of_cons. by left. }
    cbn [fmap list_fmap fst closeAllFrom]. rewrite Hkey.
    rewrite filter_cons.
    destruct (page (stagehand session)) eqn:Hp.
    + rewrite decide_True by exact Hp.
      cbn [fst snd].
      destruct fuel as [|fuel]; [cbn in Hfuel; lia|].
      cbn [closeAllAlone closeAllTurn closeSettled pageOf].
      set (w1 := {| sessions := sessions w; constructed := constructed w;
                    closeCalls := stagehand session :: closeCalls w |}).
      assert (closeAllAlone fuel page closeResult
                (closeAllFrom page w1 rest.*1).1 (closeAllFrom page w1 rest.*1).2
              = ({| sessions := ∅;
                    constructed := constructed w1;
                    closeCalls :=
                      (reverse ((fun kv => stagehand kv.2)
                         <$> filter (fun kv => page (stagehand kv.2) = true) rest)
                         ++ closeCalls w1)%list |}, CloseAllReturned)) as E.
      { apply IH; [done|by cbn|cbn in Hfuel; lia]. }
      destruct (closeResult (stagehand session));
        destruct (closeAllFrom page w1 rest.*1) as [w2 s2];
        cbn [fst snd] in E; rewrite E; cbn [constructed closeCalls w1];
        cbn [fmap list_fmap fst snd]; rewrite reverse_cons, <- !app_assoc; done.
    + rewrite decide_False by (cbn; congruence).
      apply IH; [done..|cbn in Hfuel; lia].
Qed.

(** Whenever the loop runs to its end, [clear()] has emptied the store. *)
Lemma closeAllFrom_returned (page : nat -> bool) (remaining : list string) (v : World) :
  (closeAllFrom page v remaining).2 = CloseAllReturned ->
  (closeAllFrom page v remaining).1
  = {| sessions := ∅; constructed := constructed v; closeCalls := closeCalls v |}.
Proof.
  induction remaining as [|key rest IH]; cbn [closeAllFrom]; [done|].
  destruct (sessions v !! key) as [session|]; [|exact IH].
  destruct (page (stagehand session)); [|exact IH]. cbn. discriminate.
Qed.

(** X11. closeAllSessions, run with no other call resumed while it waits
    on a close, returns normally and leaves the store empty whatever the
    closes do; page.close() is invoked on the instance of every record
    whose page is defined, once per such record, and on no other
    instance; nothing is constructed. And however other calls are
    interleaved with it, the turn in which it finishes empties the
    store, constructs nothing and closes nothing more. *)
Theorem closeAllSessions_drains (page : nat -> bool)
    (closeResult : nat -> Result unit) (w : World) :
  (exists newly,
     closeAllSessions page closeResult w
     = ({| sessions := ∅; constructed := constructed w;
           closeCalls := (newly ++ closeCalls w)%list |}, CloseAllReturned)
     /\ (forall h, h ∈ newly <->
           exists key session, sessions w !! key = Some session
              /\ page (stagehand session) = true /\ stagehand session = h)
     /\ length newly
        = size (filter (fun kv => page (stagehand kv.2) = true) (sessions w)))
  /\ (forall (o : PassObs) (v : World) (s : CloseAll),
        s <> CloseAllReturned ->
        (closeAllTurn o v s).2 = CloseAllReturned ->
        (closeAllTurn o v s).1
        = {| sessions := ∅; constructed := constructed v; closeCalls := closeCalls v |}).
Proof.
  split.
  - unfold closeAllSessions. cbn [closeAllAlone closeAllTurn pageOf].
    pose proof (closeAllAlone_from page closeResult (sessions w) (map_to_list (sessions w))
                  (fun k r H => proj1 (elem_of_map_to_list _ _ _) H)
                  (size (sessions w)) w eq_refl) as E.
    rewrite length_map_to_list in E. specialize (E (le_n _)).
    destruct (closeAllFrom page w (map_to_list (sessions w)).*1) as [w1 s1].
    cbn [fst snd] in E. rewrite E.
    eexists. split; [reflexivity|]. split.
    + intros h. rewrite elem_of_reverse, list_elem_of_fmap. split.
      * intros ([k r] & -> & Hin). apply list_elem_of_filter in Hin as [Hp Hin].
        apply elem_of_map_to_list in Hin. exists k, r. auto.
      * intros (k & r & Hk & Hp & <-). exists (k, r). split; [done|].
        apply list_elem_of_filter. split; [done|]. by apply elem_of_map_to_list.
    + rewrite length_reverse, length_fmap.
      apply (length_filter_map_to_list (fun kv => page (stagehand kv.2) = true)).
  - intros o v s Hs. destruct s as [|session remaining|]; [| |done];
      cbn [closeAllTurn].
    + apply closeAllFrom_returned.
    + destruct (closeSettled o); apply closeAllFrom_returned.
Qed.

Lemma closeAllSessions_drains_witness :
  (closeAllSessions (fun h => Nat.eqb h 1) (fun _ => Throw "Target closed") coldWorld
   = ({| sessions := ∅; constructed := 2; closeCalls := [1] |}, CloseAllReturned))
  /\ (closeAllTurn {| clock := 0; pageOf := fun _ => true; closeSettled := Ok tt |}
        coldWorld (CloseAllAwaitClose warmRecord [])).1
     = {| sessions := ∅; constructed := 2; closeCalls := [] |}.
Proof.
  split; [vm_compute; reflexivity|].
  apply (proj2 (closeAllSessions_drains (fun _ => true) (fun _ => Ok tt) emptyWorld)
           {| clock := 0; pageOf := fun _ => true; closeSettled := Ok tt |}
           coldWorld (CloseAllAwaitClose warmRecord []));
    [discriminate | reflexivity].
Defined.

(** ** Screenshot resources: further properties *)

Lemma cleanupSessionScreenshots_eq (s : string) (st : Store) (shots : gset string) :
  sessionScreenshots st !! s = Some shots ->
  cleanupSessionScreenshots s st
  = ({| screenshots := (foldl deleteCounting (screenshots st, 0) (elements shots)).1;
        sessionScreenshots := delete s (sessionScreenshots st) |},
     (foldl deleteCounting (screenshots st, 0) (elements shots)).2).
Proof.
  intros Hs. unfold cleanupSessionScreenshots. rewrite Hs.
  by destruct (foldl deleteCounting (screenshots st, 0) (elements shots)).
Qed.

(** X12. For a session that is tracked, cleanupSessionScreenshots
    removes the session's tracking entry and only that entry, deletes
    every screenshot whose name the session tracked, leaves every other
    screenshot as it was, and returns the number of tracked names that
    were actually stored, which is at most the number of tracked names. *)
Theorem cleanupSessionScreenshots_effect (s : string) (st : Store) (shots : gset string) :
  sessionScreenshots st !! s = Some shots ->
  let r := cleanupSessionScreenshots s st in
  sessionScreenshots r.1 = delete s (sessionScreenshots st)
  /\ (forall n, n ∈ shots -> screenshots r.1 !! n = None)
  /\ (forall n, n ∉ shots -> screenshots r.1 !! n = screenshots st !! n)
  /\ r.2 = length (filter (fun n => is_Some (screenshots st !! n)) (elements shots))
  /\ r.2 <= size shots.
Proof.
  intros Hs r. unfold r. rewrite (cleanupSessionScreenshots_eq s st shots Hs).
  cbn [fst snd screenshots sessionScreenshots].
  split; [done|]. split; [|split; [|split]].
  - intros n Hn. rewrite foldl_deleteCounting_lookup.
    rewrite decide_True; [done|]. by apply elem_of_elements.
  - intros n Hn. rewrite foldl_deleteCounting_lookup.
    rewrite decide_False; [done|]. by rewrite elem_of_elements.
  - rewrite foldl_deleteCounting_count by apply NoDup_elements. lia.
  - rewrite foldl_deleteCounting_count by apply NoDup_elements. cbn [plus].
    etrans; [apply length_filter|]. done.
Qed.

Lemma cleanupSessionScreenshots_effect_witness :
  let r := cleanupSessionScreenshots "alice" someStore in
  sessionScreenshots r.1 = delete "alice" (sessionScreenshots someStore)
  /\ screenshots r.1 !! "shot" = None
  /\ screenshots r.1 !! "home" = screenshots someStore !! "home".
Proof.
  pose proof (cleanupSessionScreenshots_effect "alice" someStore {[ "shot" ]}) as H.
  cbv zeta in H. destruct H as (H1 & H2 & H3 & _); [reflexivity|].
  split; [exact H1|]. split.
  - apply H2. by apply elem_of_singleton.
  - apply H3. intros Hin. apply elem_of_singleton in Hin. discriminate Hin.
Defined.

Lemma addScreenshot_eq (s n d : string) (st : Store) :
  addScreenshot s n d st
  = {| screenshots := <[n := d]> (screenshots st);
       sessionScreenshots :=
         <[s := default ∅ (sessionScreenshots st !! s) ∪ {[n]}]> (sessionScreenshots st) |}.
Proof.
  unfold addScreenshot. f_equal.
  destruct (sessionScreenshots st !! s) as [shots|] eqn:Hs.
  - by rewrite Hs.
  - rewrite lookup_insert_eq. cbn. by rewrite insert_insert_eq.
Qed.


(** X15. For a session not yet tracked and a name not yet stored,
    addScreenshot followed by cleanupSessionScreenshots of that session
    restores the store exactly and returns 1. *)
Theorem addScreenshot_then_cleanup (s n d : string) (st : Store) :
  sessionScreenshots st !! s = None ->
  screenshots st !! n = None ->
  cleanupSessionScreenshots s (addScreenshot s n d st) = (st, 1).
Proof.
  intros Hs Hn.
  rewrite (cleanupSessionScreenshots_eq s _ {[n]}).
  2:{ rewrite addScreenshot_eq. cbn. rewrite lookup_insert_eq, Hs. cbn. f_equal. set_solver. }
  rewrite elements_singleton. cbn [foldl]. unfold deleteCounting. cbn [fst snd].
  rewrite addScreenshot_eq. cbn [screenshots sessionScreenshots].
  rewrite lookup_insert_eq. cbn [fst snd].
  rewrite delete_insert_eq, delete_insert_eq.
  rewrite !delete_id by done. by destruct st.
Qed.

Lemma addScreenshot_then_cleanup_witness :
  cleanupSessionScreenshots "carol" (addScreenshot "carol" "cart" "CCCC" someStore)
  = (someStore, 1).
Proof.
  apply (addScreenshot_then_cleanup "carol" "cart" "CCCC" someStore); reflexivity.
Defined.

(** X16. Whenever readResource returns, the uri starts with
    'screenshot://', the result is a single content carrying the
    requested uri, mime type 'image/png' and the non-empty data stored
    under the segment of the uri between its first and second '://'; it
    never returns an empty blob. Whenever it throws, the message is
    'Resource not found: ' followed by the uri. *)
Theorem readResource_outcomes (u : string) (st : Store) :
  (forall cs, readResource u st = Ok cs ->
     JS.startsWith u "screenshot://" = true
     /\ exists n d, JS.split u "://" !! 1 = Some n
          /\ screenshots st !! n = Some d /\ d <> ""
          /\ cs = [ {| uri := u; mimeType := "image/png"; blob := d |} ])
  /\ (forall msg, readResource u st = Throw msg -> msg = "Resource not found: " +:+ u).
Proof.
  unfold readResource, notFound. split.
  - intros cs. destruct (JS.startsWith u "screenshot://"); [|discriminate].
    destruct (JS.split u "://" !! 1) as [n|]; [|discriminate].
    destruct (screenshots st !! n) as [d|] eqn:Hd; [|discriminate].
    cbn [JS.truthy]. destruct (String.eqb d "") eqn:He; cbn [negb]; [discriminate|].
    intros [= <-]. split; [done|]. exists n, d. repeat split; try done.
    by apply String.eqb_neq.
  - intros msg. destruct (JS.startsWith u "screenshot://"); [|congruence].
    destruct (JS.split u "://" !! 1) as [n|]; [|congruence].
    destruct (screenshots st !! n) as [d|]; [|congruence].
    destruct (JS.truthy (Some d)); congruence.
Qed.

Lemma readResource_outcomes_witness :
  JS.startsWith "screenshot://shot" "screenshot://" = true
  /\ exists n d, JS.split "screenshot://shot" "://" !! 1 = Some n
       /\ screenshots someStore !! n = Some d /\ d <> ""
       /\ [ {| uri := "screenshot://shot"; mimeType := "image/png"; blob := "AAAA" |} ]
          = [ {| uri := "screenshot://shot"; mimeType := "image/png"; blob := d |} ].
Proof.
  apply (proj1 (readResource_outcomes "screenshot://shot" someStore)).
  reflexivity.
Defined.

(** ** Listing *)

Lemma describe_inj (a b : string) : Listing.describe a = Listing.describe b -> a = b.
Proof.
  unfold Listing.describe. intros [= H _]. exact H.
Qed.

(** X17. listResources lists exactly the stored screenshots: an entry is
    listed if and only if it is the description (uri 'screenshot://' +
    name, mime type 'image/png', name 'Screenshot: ' + name) of a stored
    name; the list has one entry per stored screenshot and no entry
    twice. *)
Theorem listResources_lists_the_store (st : Store) :
  (forall r, r ∈ Listing.listResources st <->
     exists n, is_Some (screenshots st !! n) /\ r = Listing.describe n)
  /\ length (Listing.listResources st) = size (screenshots st)
  /\ NoDup (Listing.listResources st).
Proof.
  unfold Listing.listResources. split; [|split].
  - intros r. rewrite list_elem_of_fmap. split.
    + intros (n & -> & Hin). apply list_elem_of_fmap in Hin as ([k d] & -> & Hin).
      apply elem_of_map_to_list in Hin. exists k. split; [by eexists|done].
    + intros (n & [d Hd] & ->). exists n. split; [done|].
      apply list_elem_of_fmap. exists (n, d). split; [done|].
      by apply elem_of_map_to_list.
  - by rewrite !length_fmap, length_map_to_list.
  - apply NoDup_fmap_2; [|apply NoDup_fst_map_to_list].
    intros a b. apply describe_inj.
Qed.

(** X18. Every stored screenshot whose name does not contain '://' and
    whose data is not empty is listed by listResources, and readResource
    of the listed uri returns its data with the listed uri and mime
    type. *)
Theorem listed_resource_reads_back (n d : string) (st : Store) :
  screenshots st !! n = Some d ->
  JS.includes n "://" = false ->
  d <> "" ->
  Listing.describe n ∈ Listing.listResources st
  /\ readResource (Listing.uri (Listing.describe n)) st
     = Ok [ {| uri := Listing.uri (Listing.describe n);
               mimeType := Listing.mimeType (Listing.describe n);
               blob := d |} ].
Proof.
  intros Hd Hn Hne. split.
  - apply (proj1 (listResources_lists_the_store st)). exists n. split; [by eexists|done].
  - cbn [Listing.describe Listing.uri Listing.mimeType].
    rewrite readResource_screenshot_uri by done. rewrite Hd.
    apply String.eqb_neq in Hne. by rewrite Hne.
Qed.

(** ** Streams and routing: further properties *)

Lemma truthy_or (a b : option string) :
  JS.truthy (JS.or a b) = JS.truthy a || JS.truthy b.
Proof. unfold JS.or. by destruct (JS.truthy a) eqn:Ha; cbn; rewrite ?Ha. Qed.

Lemma truthy_Some (s : string) : s <> "" -> JS.truthy (Some s) = true.
Proof. intros H. cbn. apply negb_true_iff. by apply String.eqb_neq. Qed.

(** X21. The /sse handler answers 401 with the message listing the three
    header names and the three query parameter names, leaving the
    registry as it was, exactly when at least one of the three
    credentials is absent or empty both in the query and in the headers. *)
Theorem sse_unauthorized_iff (req : Http.Request) (connected : Result unit)
    (sessionId : option string) (c : Sse.Connection)
    (registry : gmap string Sse.Connection) :
  Http.supplied req "browserbase_api_key" "x-browserbase-api-key"
    && Http.supplied req "browserbase_project_id" "x-browserbase-project-id"
    && Http.supplied req "openai_api_key" "x-openai-api-key" = false
  <-> Http.sse req connected sessionId c registry
      = (registry, Some {| Sse.status := 401; Sse.body := Sse.missingKeysMessage |}).
Proof.
  unfold Http.sse, Sse.sse, Http.extractApiKeys, Http.supplied.
  cbn [browserbaseApiKey browserbaseProjectId openaiApiKey].
  rewrite !truthy_or.
  destruct (JS.truthy (Http.query req !! "browserbase_api_key")
            || JS.truthy (Http.headers req !! "x-browserbase-api-key")),
           (JS.truthy (Http.query req !! "browserbase_project_id")
            || JS.truthy (Http.headers req !! "x-browserbase-project-id")),
           (JS.truthy (Http.query req !! "openai_api_key")
            || JS.truthy (Http.headers req !! "x-openai-api-key"));
    cbn [negb orb andb]; try tauto.
  split; [discriminate|].
  destruct connected; [destruct sessionId as [id|]; [destruct (JS.truthy (Some id))|]|];
    intros H; discriminate H.
Qed.

Theorem extractApiKeys_query_first (req : Http.Request) (v : string) :
  v <> "" ->
  (Http.query req !! "browserbase_api_key" = Some v ->
     browserbaseApiKey (Http.extractApiKeys req) = Some v)
  /\ (Http.query req !! "browserbase_project_id" = Some v ->
        browserbaseProjectId (Http.extractApiKeys req) = Some v)
  /\ (Http.query req !! "openai_api_key" = Some v ->
        openaiApiKey (Http.extractApiKeys req) = Some v)
  /\ (JS.truthy (Http.query req !! "browserbase_api_key") = false ->
        browserbaseApiKey (Http.extractApiKeys req)
        = Http.headers req !! "x-browserbase-api-key")
  /\ (JS.truthy (Http.query req !! "browserbase_project_id") = false ->
        browserbaseProjectId (Http.extractApiKeys req)
        = Http.headers req !! "x-browserbase-project-id")
  /\ (JS.truthy (Http.query req !! "openai_api_key") = false ->
        openaiApiKey (Http.extractApiKeys req)
        = Http.headers req !! "x-openai-api-key").
Proof.
  intros Hv. pose proof (truthy_Some v Hv) as Ht.
  unfold Http.extractApiKeys, JS.or. cbn.
  repeat split; intros H; rewrite H; try done; by rewrite Ht.
Qed.

Lemma extractApiKeys_query_first_witness :
  browserbaseApiKey (Http.extractApiKeys someRequest) = Some "bb_query"
  /\ browserbaseProjectId (Http.extractApiKeys someRequest) = Some "proj-1".
Proof.
  destruct (extractApiKeys_query_first someRequest "bb_query") as (H1 & _ & _ & _ & H5 & _);
    [discriminate|].
  split; [by apply H1 | by apply H5].
Defined.

(** X23. After /sse has registered a connection under a non-empty
    session id, a post for that id is handed to that connection; after
    the id is removed, a post for it gets 503 'No active SSE connection
    for session <id>'; posts for every other id are answered as before
    the registration, both after it and after the removal. *)
Theorem register_route_remove (apiKeys : ApiKeys) (id : string) (c : Sse.Connection)
    (registry : gmap string Sse.Connection)
    (called : Result unit) (raised headersSent : bool) :
  JS.truthy (browserbaseApiKey apiKeys) = true ->
  JS.truthy (browserbaseProjectId apiKeys) = true ->
  JS.truthy (openaiApiKey apiKeys) = true ->
  id <> "" ->
  let opened := (Sse.sse apiKeys (Ok tt) (Some id) c registry).1 in
  (Sse.messages (Some id) (Ok tt) raised headersSent opened).2 = Sse.Forwarded c None
  /\ (Sse.messages (Some id) called raised headersSent (Sse.remove id opened)).2
     = Sse.Replied {| Sse.status := 503;
                      Sse.body := "No active SSE connection for session " +:+ id |}
  /\ (forall other, other <> id ->
        (Sse.messages (Some other) called raised headersSent opened).2
        = (Sse.messages (Some other) called raised headersSent registry).2
        /\ (Sse.messages (Some other) called raised headersSent (Sse.remove id opened)).2
           = (Sse.messages (Some other) called raised headersSent registry).2).
Proof.
  intros H1 H2 H3 Hid opened.
  assert (opened = <[id := c]> registry) as ->.
  { unfold opened, Sse.sse. rewrite H1, H2, H3. cbn [negb orb]. by rewrite truthy_Some. }
  unfold Sse.messages, Sse.remove. rewrite (truthy_Some id Hid). cbn [negb].
  split; [|split].
  - by rewrite lookup_insert_eq.
  - by rewrite lookup_delete_eq.
  - intros other Hne. destruct (JS.truthy (Some other)); cbn [negb]; [|by split].
    rewrite lookup_delete_ne, !lookup_insert_ne by done.
    split; by destruct (registry !! other), called, headersSent.
Qed.

Lemma register_route_remove_witness :
  let opened := (Sse.sse validKeys (Ok tt) (Some "5f2c") firstConnection ∅).1 in
  (Sse.messages (Some "5f2c") (Ok tt) false false opened).2
    = Sse.Forwarded firstConnection None
  /\ (Sse.messages (Some "5f2c") (Ok tt) false false (Sse.remove "5f2c" opened)).2
     = Sse.Replied {| Sse.status := 503;
                      Sse.body := "No active SSE connection for session " +:+ "5f2c" |}.
Proof.
  pose proof (register_route_remove validKeys "5f2c" firstConnection ∅ (Ok tt)
                false false) as H.
  cbv zeta in H. destruct H as (H1 & H2 & _); try reflexivity; [discriminate|].
  split; [exact H1 | exact H2].
Defined.

(** X24. Deleting a session id from the registry, as the close, error
    and disconnect handlers all do, is idempotent, commutes with the
    deletion of another id, is a no-op on an id that is not registered,
    leaves the id unregistered and leaves every other id's entry as it
    was. *)
Theorem remove_races_harmless (a b : string) (registry : gmap string Sse.Connection) :
  Sse.remove a (Sse.remove a registry) = Sse.remove a registry
  /\ Sse.remove a (Sse.remove b registry) = Sse.remove b (Sse.remove a registry)
  /\ (registry !! a = None -> Sse.remove a registry = registry)
  /\ Sse.remove a registry !! a = None
  /\ (b <> a -> Sse.remove a registry !! b = registry !! b).
Proof.
  unfold Sse.remove. repeat split.
  - apply delete_id. apply lookup_delete_eq.
  - apply delete_delete.
  - apply delete_id.
  - apply lookup_delete_eq.
  - intros Hne. by apply lookup_delete_ne.
Qed.

(** X25. The /messages handler changes the registry in one way only:
    when it hands a post to a connection and the transport reports an
    error through onerror while handling it, the post's own session id
    is deregistered; a post answered 400 or 503 leaves the registry as
    it was, and the entry of every other id is always left as it was.
    When it hands a post to a connection, the session id is non-empty
    and that connection is the one registered for it; it then also
    sends 500 'Internal server error' exactly when the call of
    handlePostMessage threw and no headers had been sent, and sends
    nothing of its own otherwise. The same holds when the promise of
    handlePostMessage settles later: only the post's own id can be
    deregistered, and 500 is sent exactly when the promise was rejected
    and no headers had been sent. *)
Theorem messages_outcomes (sessionId : option string) (called : Result unit)
    (raised headersSent : bool) (registry : gmap string Sse.Connection) :
  let r := Sse.messages sessionId called raised headersSent registry in
  (forall other, sessionId <> Some other -> r.1 !! other = registry !! other)
  /\ (forall rep, r.2 = Sse.Replied rep -> r.1 = registry)
  /\ (forall c rep, r.2 = Sse.Forwarded c rep ->
        exists id, sessionId = Some id /\ id <> "" /\ registry !! id = Some c
          /\ r.1 = (if raised then Sse.remove id registry else registry)
          /\ (raised = true -> r.1 !! id = None)
          /\ (rep = Some {| Sse.status := 500; Sse.body := "Internal server error" |}
              <-> (exists msg, called = Throw msg) /\ headersSent = false)
          /\ (rep = None
              \/ rep = Some {| Sse.status := 500; Sse.body := "Internal server error" |}))
  /\ (forall id handledPost raisedLater sentLater later,
        let s := Sse.messagesSettled id handledPost raisedLater sentLater later in
        (forall other, other <> id -> s.1 !! other = later !! other)
        /\ (raisedLater = false -> s.1 = later)
        /\ (raisedLater = true -> s.1 !! id = None)
        /\ (s.2 = Some {| Sse.status := 500; Sse.body := "Internal server error" |}
            <-> (exists msg, handledPost = Throw msg) /\ sentLater = false)
        /\ (s.2 = None
            \/ s.2 = Some {| Sse.status := 500; Sse.body := "Internal server error" |})).
Proof.
  intros r. split; [|split; [|split]].
  - intros other Hne. unfold r, Sse.messages.
    destruct sessionId as [id|]; [|done].
    destruct (negb (JS.truthy (Some id))); [done|].
    destruct (registry !! id) as [session|]; [|done].
    cbn [fst]. destruct raised; [|done].
    unfold Sse.remove. apply lookup_delete_ne. congruence.
  - intros rep. unfold r, Sse.messages.
    destruct sessionId as [id|]; [|done].
    destruct (negb (JS.truthy (Some id))); [done|].
    destruct (registry !! id) as [session|]; [|done].
    cbn [snd]. destruct called as [[]|msg]; [|destruct headersSent]; discriminate.
  - intros c rep. unfold r, Sse.messages.
    destruct sessionId as [id|]; [|discriminate].
    cbn [JS.truthy]. destruct (String.eqb_spec id "") as [->|Hne]; cbn [negb];
      [discriminate|].
    destruct (registry !! id) as [session|] eqn:Hs; [|discriminate].
    cbn [fst snd]. intros Hr. exists id.
    split; [done|]. split; [done|].
    assert (session = c) as ->
      by (destruct called as [[]|msg]; [|destruct headersSent]; congruence).
    split; [done|]. split; [done|]. split.
    { intros ->. unfold Sse.remove. apply lookup_delete_eq. }
    destruct called as [[]|msg]; [|destruct headersSent]; injection Hr as <-.
    + split; [|by left]. split; [discriminate|]. intros [[m Hm] _]. discriminate Hm.
    + split; [|by left]. split; [discriminate|]. intros [_ Hh]. discriminate Hh.
    + split; [|by right]. split; [|done]. intros _. split; [by exists msg|done].
  - intros id handledPost raisedLater sentLater later s. unfold s, Sse.messagesSettled.
    cbn [fst snd].
    split; [|split; [|split; [|split; [split|]]]].
    + intros other Hne. destruct raisedLater; [|done].
      unfold Sse.remove. by apply lookup_delete_ne.
    + by intros ->.
    + intros ->. unfold Sse.remove. apply lookup_delete_eq.
    + destruct handledPost as [[]|msg]; [|destruct sentLater]; try discriminate.
      intros _. split; [by exists msg|done].
    + intros [[msg ->] ->]. done.
    + destruct handledPost as [[]|msg]; [|destruct sentLater]; auto.
Qed.

Lemma messages_outcomes_witness :
  let registry : gmap string Sse.Connection :=
    {[ "5f2c" := firstConnection; "77aa" := secondConnection ]} in
  let r := Sse.messages (Some "5f2c") (Ok tt) true true registry in
  r.2 = Sse.Forwarded firstConnection None
  /\ r.1 !! "5f2c" = None
  /\ r.1 !! "77aa" = Some secondConnection.
Proof.
  pose proof (messages_outcomes (Some "5f2c") (Ok tt) true true
                {[ "5f2c" := firstConnection; "77aa" := secondConnection ]}) as H.
  cbv zeta in H. destruct H as (Hother & _ & Hfwd & _).
  split; [reflexivity|]. split.
  - destruct (Hfwd firstConnection None) as (id & [= <-] & _ & _ & _ & Hgone & _);
      [reflexivity|].
    by apply Hgone.
  - rewrite Hother by discriminate. reflexivity.
Defined.

(** ** CallTool and ReadResource handlers *)

(** X20. For a CallTool request naming a known tool: when
    ensureStagehand throws, and also when the tool call itself (or the
    sanitising of its result) throws, the handler returns the isError
    result whose first text is 'Failed to initialize Stagehand:
    <message>' and whose second text is 'Operation logs:' followed by
    the gathered log lines; when both succeed it returns the sanitised
    tool result. *)
Theorem callTool_known_name (TOOLS : list string) (c : Dispatcher.Collaborators)
    (n : string) :
  n <> "" ->
  existsb (String.eqb n) TOOLS = true ->
  (forall msg, Dispatcher.ensured c = Throw msg ->
     Dispatcher.callTool TOOLS c (Some n)
     = Dispatcher.ToolResult
         [ "Failed to initialize Stagehand: " +:+ msg;
           "Operation logs:" +:+ Dispatcher.newline
             +:+ JS.join Dispatcher.newline (Dispatcher.operationLogs c) ] true)
  /\ (forall instance msg, Dispatcher.ensured c = Ok instance ->
        Dispatcher.handled c n instance = Throw msg ->
        Dispatcher.callTool TOOLS c (Some n)
        = Dispatcher.ToolResult
            [ "Failed to initialize Stagehand: " +:+ msg;
              "Operation logs:" +:+ Dispatcher.newline
                +:+ JS.join Dispatcher.newline (Dispatcher.operationLogs c) ] true)
  /\ (forall instance result, Dispatcher.ensured c = Ok instance ->
        Dispatcher.handled c n instance = Ok result ->
        Dispatcher.callTool TOOLS c (Some n) = result).
Proof.
  intros Hn Hk. unfold Dispatcher.callTool. rewrite (truthy_Some n Hn), Hk. cbn [negb orb].
  repeat split.
  - by intros msg ->.
  - by intros instance msg -> ->.
  - by intros instance result -> ->.
Qed.

Lemma callTool_known_name_witness :
  Dispatcher.callTool someTools healthy (Some "stagehand_act")
  = Dispatcher.ToolResult ["done"] false.
Proof.
  destruct (callTool_known_name someTools healthy "stagehand_act") as (_ & _ & H);
    [discriminate | reflexivity |].
  apply (H 0); reflexivity.
Defined.

(** X19. The ReadResource handler answers a uri that does not start with
    'screenshot://', or that names (with a name free of '://') a
    screenshot that is not stored or is stored with empty data, with an
    error object of code -32603 and message 'Internal error: Resource
    not found: <uri>', whatever the sanitiser does; it does not throw. *)
Theorem readResource_handler_not_found {A : Type}
    (reparse : list Resources.Content -> Result A) (u : string) (st : Resources.Store) :
  (JS.startsWith u "screenshot://" = false
   \/ exists n, u = "screenshot://" +:+ n /\ JS.includes n "://" = false
        /\ (Resources.screenshots st !! n = None
            \/ Resources.screenshots st !! n = Some "")) ->
  Handlers.readResource reparse u st
  = Handlers.ErrorObject (-32603) ("Internal error: Resource not found: " +:+ u).
Proof.
  unfold Handlers.readResource.
  intros [Hu | (n & -> & Hn & [Hs | Hs])].
  - unfold Resources.readResource. by rewrite Hu.
  - rewrite readResource_screenshot_uri by done. by rewrite Hs.
  - rewrite readResource_screenshot_uri by done. by rewrite Hs.
Qed.

Lemma readResource_handler_not_found_witness :
  Handlers.readResource (fun cs => Ok cs) "console://logs" someStore
  = Handlers.ErrorObject (-32603) ("Internal error: Resource not found: " +:+ "console://logs").
Proof.
  apply (readResource_handler_not_found (fun cs => Ok cs) "console://logs" someStore).
  left. reflexivity.
Defined.

(** ** Single-instance [ensureStagehand]: further properties *)












Lemma or_truthy_l (a b : option string) : JS.truthy a = true -> JS.or a b = a.
Proof. intros H. unfold JS.or. by rewrite H. Qed.

(** X22. For a request that passes the 401 check of /sse,
    getStagehandConfig applied to its extracted keys succeeds and takes
    all three credentials from the request (query first, then header),
    whatever credentials the process environment holds; only CONTEXT_ID
    comes from the environment. *)
Theorem opened_stream_uses_request_credentials (req : Http.Request) (e : ProcessEnv) :
  Http.supplied req "browserbase_api_key" "x-browserbase-api-key" = true ->
  Http.supplied req "browserbase_project_id" "x-browserbase-project-id" = true ->
  Http.supplied req "openai_api_key" "x-openai-api-key" = true ->
  getStagehandConfig e (Some (Http.extractApiKeys req))
  = Ok {| apiKey := browserbaseApiKey (Http.extractApiKeys req);
          projectId := browserbaseProjectId (Http.extractApiKeys req);
          modelApiKey := openaiApiKey (Http.extractApiKeys req);
          contextId := if JS.truthy (CONTEXT_ID e) then CONTEXT_ID e else None |}.
Proof.
  unfold Http.supplied. rewrite <- !truthy_or. intros H1 H2 H3.
  unfold getStagehandConfig, field, Http.extractApiKeys.
  cbn [browserbaseApiKey browserbaseProjectId openaiApiKey].
  rewrite !(or_truthy_l _ _ H1), !(or_truthy_l _ _ H2), !(or_truthy_l _ _ H3).
  by rewrite H1, H2, H3.
Qed.

Lemma opened_stream_uses_request_credentials_witness :
  getStagehandConfig
    {| BROWSERBASE_API_KEY := Some "bb_env"; BROWSERBASE_PROJECT_ID := Some "proj-env";
       OPENAI_API_KEY := Some "sk-env"; CONTEXT_ID := None |}
    (Some (Http.extractApiKeys fullRequest))
  = Ok {| apiKey := Some "bb_query"; projectId := Some "proj-1";
          modelApiKey := Some "sk-1"; contextId := None |}.
Proof.
  apply (opened_stream_uses_request_credentials fullRequest
           {| BROWSERBASE_API_KEY := Some "bb_env"; BROWSERBASE_PROJECT_ID := Some "proj-env";
              OPENAI_API_KEY := Some "sk-env"; CONTEXT_ID := None |}); reflexivity.
Defined.

Lemma listed_resource_reads_back_witness :
  Listing.describe "shot" ∈ Listing.listResources someStore
  /\ readResource (Listing.uri (Listing.describe "shot")) someStore
     = Ok [ {| uri := Listing.uri (Listing.describe "shot");
               mimeType := Listing.mimeType (Listing.describe "shot");
               blob := "AAAA" |} ].
Proof.
  apply (listed_resource_reads_back "shot" "AAAA" someStore); [reflexivity..|discriminate].
Defined.
